(** * pkg/kubernetes/util/diff.go: naming, diffing and filtering

    A shallow embedding of [diff.go].  Go strings are byte sequences and are
    modelled as [string] (a list of 8-bit characters).  Everything the file
    does to the outside world (temporary files, child processes, the
    diagnostic stream, process termination) is threaded through an explicit
    state and an explicit outcome type; what the outside world answers is
    read from a [World] record of oracles. *)

From Stdlib Require Import ZArith Ascii.
From stdpp Require Import gmap strings list fin_maps pretty.

Open Scope Z_scope.

(** ** The [strings] package, as far as [diff.go] calls it *)

Module strings.

(** [strings.HasPrefix]. *)
Fixpoint HasPrefix (s pre : string) {struct pre} : bool :=
  match pre, s with
  | "", _ => true
  | String a pre', String b s' => if decide (a = b) then HasPrefix s' pre' else false
  | String _ _, "" => false
  end.

(** [strings.Join]. *)
Fixpoint Join (elems : list string) (sep : string) : string :=
  match elems with
  | [] => ""
  | [e] => e
  | e :: rest => e +:+ sep +:+ Join rest sep
  end.

(** Scanning loop of [strings.Replace] for a non-empty [old]: [skip] counts
    the bytes of the current match still to be dropped and [n] the
    replacements still allowed (negative: no limit). *)
Fixpoint replace_go (old new : string) (skip : nat) (n : Z) (s : string) : string :=
  match s with
  | "" => ""
  | String c s' =>
      match skip with
      | S k => replace_go old new k n s'
      | O =>
          if decide (n = 0) then s
          else if HasPrefix s old
               then new +:+ replace_go old new (String.length old - 1) (if decide (n < 0) then n else n - 1) s'
               else String c (replace_go old new 0 n s')
      end
  end.

(** [strings.Replace(s, old, new, n)].  The library's special case of an
    empty [old] (insertion between runes) is not used by this program and
    is not modelled: the string is returned as it is. *)
Definition Replace (s old new : string) (n : Z) : string :=
  if decide (old = new) then s
  else if decide (old = "") then s
  else replace_go old new 0 n s.

(** Scanning loop of [strings.Split] for a non-empty [sep]: [cur] is the
    piece being collected, in reverse. *)
Fixpoint split_go (sep : string) (skip : nat) (cur : string) (s : string) : list string :=
  match s with
  | "" => [String.rev cur]
  | String c s' =>
      match skip with
      | S k => split_go sep k cur s'
      | O =>
          if HasPrefix s sep
          then String.rev cur :: split_go sep (String.length sep - 1) "" s'
          else split_go sep 0 (String c cur) s'
      end
  end.

(** [strings.Split(s, sep)].  The empty separator (explode into runes) is
    not used by this program and is not modelled. *)
Definition Split (s sep : string) : list string :=
  if decide (sep = "") then [s] else split_go sep 0 "" s.

(** Does byte [c] occur in [s]? *)
Fixpoint ContainsByte (s : string) (c : ascii) : bool :=
  match s with
  | "" => false
  | String a s' => if decide (a = c) then true else ContainsByte s' c
  end.

End strings.

(** ** The resource record *)

(** Modelled from the spec: the [manifest.Manifest] type lives in another
    package of the repository; [DiffName] only reads the four strings the
    spec lists for a ResourceIdentity, through the accessors [APIVersion],
    [Kind], [Metadata().Namespace] and [Metadata().Name]. *)
Record Manifest := {
  APIVersion : string;
  Kind : string;
  Namespace : string;
  Name : string;
}.

(** [fmt.Sprintf("%s.%s.%s.%s", a, b, c, d)]. *)
Definition Sprintf_dotted4 (a b c d : string) : string :=
  a +:+ "." +:+ b +:+ "." +:+ c +:+ "." +:+ d.

(** [DiffName] computes the filename for use with [DiffStr]. *)
Definition DiffName (m : Manifest) : string :=
  strings.Replace
    (Sprintf_dotted4 (APIVersion m) (Kind m) (Namespace m) (Name m))
    "/" "-" (-1).

(** The spec's wording of the same function: every ['/'] becomes ['-'],
    byte by byte. *)
Fixpoint slash_to_dash (s : string) : string :=
  match s with
  | "" => ""
  | String c s' => String (if decide (c = "/"%char) then "-"%char else c) (slash_to_dash s')
  end.

(** ** The [path/filepath] package (Unix), as far as [diff.go] calls it *)

Module filepath.

(** Component pass of [filepath.Clean]: [stack] holds the components kept
    so far, innermost first. *)
Fixpoint clean_go (rooted : bool) (stack comps : list string) : list string :=
  match comps with
  | [] => reverse stack
  | c :: rest =>
      if decide (c = "" ∨ c = ".") then clean_go rooted stack rest
      else if decide (c = "..") then
        match stack with
        | top :: below =>
            if decide (top = "..") then clean_go rooted (c :: stack) rest
            else clean_go rooted below rest
        | [] => if rooted then clean_go rooted [] rest else clean_go rooted [c] rest
        end
      else clean_go rooted (c :: stack) rest
  end.

(** [filepath.Clean]: the shortest lexically equivalent path. *)
Definition Clean (path : string) : string :=
  if decide (path = "") then "."
  else
    let rooted := strings.HasPrefix path "/" in
    let out := (if rooted then "/" else "")
                 +:+ strings.Join (clean_go rooted [] (strings.Split path "/")) "/" in
    if decide (out = "") then "." else out.

(** [filepath.Join]: leading empty elements are ignored, the rest is joined
    by the separator and cleaned. *)
Fixpoint Join (elem : list string) : string :=
  match elem with
  | [] => ""
  | e :: rest => if decide (e = "") then Join rest else Clean (strings.Join elem "/")
  end.

End filepath.

(** ** Errors *)

(** How a child process ended ([os.ProcessState]). *)
Inductive ProcessState :=
| Exited (code : Z)
| Signaled (sig : string).

Definition ProcessState_ExitCode (ps : ProcessState) : Z :=
  match ps with
  | Exited c => c
  | Signaled _ => -1
  end.

Definition ProcessState_String (ps : ProcessState) : string :=
  match ps with
  | Exited c => "exit status " +:+ pretty c
  | Signaled sig => "signal: " +:+ sig
  end.

(** The error values that reach this file: [*exec.ExitError] (the child ran
    and did not exit with status 0), any other error of the operating system
    or of [os/exec] (lookup failure, failure to start, failed file
    operation), and the errors [fmt.Errorf] builds. *)
Inductive error :=
| ExitError (ps : ProcessState)
| SysError (msg : string)
| errorString (msg : string).

Definition Error (e : error) : string :=
  match e with
  | ExitError ps => ProcessState_String ps
  | SysError msg => msg
  | errorString msg => msg
  end.

(** ** Files, commands and the world *)

Inductive Node :=
| Dir
| File (data : string).

(** The filesystem: path to node. *)
Abbreviation FS := (gmap string Node).

(** Where a command reads its standard input from. *)
Inductive Input :=
| DevNull
| OsStdin
| Reader (data : string).

(** [exec.Cmd]: the fields this file sets or prints.  [Stderr] is [true]
    when the child's diagnostic stream is [os.Stderr], [false] when it is
    left unset (discarded).  What the child writes on its standard output is
    handed to the caller by [Run]. *)
Record Cmd := {
  Path : string;
  Args : list string;
  lookPathErr : option error;
  Stdin : Input;
  Stderr : bool;
}.

(** What a started child did. *)
Record ProcResult := {
  p_stdout : string;
  p_stderr : string;
  p_state : string + ProcessState;   (* [inl msg]: it could not be started *)
}.

(** The answers of the environment.  [w_TempDir] is [ioutil.TempDir] choosing
    a directory name under the system's temporary directory (or failing),
    [w_WriteFile] says whether a file may be written, [w_LookPath] searches
    the executable path, [w_spawn] runs a child process, [w_StderrWrite] is
    the result of a write on the process's own diagnostic stream. *)
Record World := {
  w_TempDir : FS → string → string + error;
  w_WriteFile : FS → string → option error;
  w_LookPath : string → option string;
  w_spawn : FS → Cmd → ProcResult;
  w_StderrWrite : list string → string → Z * option error;
}.

(** The state threaded through the program: the filesystem, the chunks
    written to the diagnostic stream so far (oldest first), and the commands
    run so far, the latest first, each with the captured standard output and
    the error [Run] gave. *)
Record State := {
  fs : FS;
  stderr : list string;
  procs : list (Cmd * string * option error);
}.

(** How a computation ends: it returns, it panics (deferred calls still
    run), or it ends the whole process through [os.Exit] (deferred calls do
    not run). *)
Inductive Outcome (A : Type) :=
| Ret (a : A)
| Panic (msg : string)
| Exit (code : Z).
Arguments Ret {A} a.
Arguments Panic {A} msg.
Arguments Exit {A} code.

Definition M (A : Type) : Type := State → Outcome A * State.

Global Instance M_ret : MRet M := λ A a st, (Ret a, st).
Global Instance M_bind : MBind M := λ A B k m st,
  match m st with
  | (Ret a, st') => k a st'
  | (Panic msg, st') => (Panic msg, st')
  | (Exit c, st') => (Exit c, st')
  end.

(** [defer cleanup] around [body]: the cleanup runs when the body returns or
    panics, not when the process exits. *)
Definition defer {A} (cleanup : State → State) (body : M A) : M A := λ st,
  match body st with
  | (Ret a, st') => (Ret a, cleanup st')
  | (Panic msg, st') => (Panic msg, cleanup st')
  | (Exit c, st') => (Exit c, st')
  end.

Definition newline : string := String "010" "".

(** The state after chunk [p] went to the diagnostic stream. *)
Definition forwarded (p : string) (st : State) : State :=
  {| fs := fs st; stderr := stderr st ++ [p]; procs := procs st |}.

(** A path is under [dir] when it is [dir] or lies below it. *)
Definition under (dir path : string) : bool :=
  bool_decide (path = dir) || strings.HasPrefix path (dir +:+ "/").

(** [os.RemoveAll]: the path and everything below it go.  Its error is
    dropped by the caller and the removal is taken to succeed. *)
Definition RemoveAll (dir : string) (st : State) : State :=
  {| fs := filter (λ kv, under dir kv.1 = false) (fs st);
     stderr := stderr st; procs := procs st |}.

(** [a[i]] on a slice of strings, with Go's run-time check. *)
Definition index (l : list string) (i : nat) : M string := λ st,
  match l !! i with
  | Some x => (Ret x, st)
  | None => (Panic ("index out of range [" +:+ pretty i +:+ "] with length "
                      +:+ pretty (length l)), st)
  end.

(** The [String] method of [exec.Cmd] (Go 1.13 and later): the resolved
    path and the arguments, or the arguments as given when the executable
    was not found. *)
Definition Cmd_String (c : Cmd) : string :=
  match lookPathErr c with
  | Some _ => strings.Join (Args c) " "
  | None => Path c +:+ foldr (λ a acc, " " +:+ a +:+ acc) "" (tail (Args c))
  end.

(** [fmt.Sprintf("%s\n%s", cmd, out)]: [*exec.Cmd] is a [Stringer]. *)
Definition Sprintf_cmd_out (c : Cmd) (out : string) : string :=
  Cmd_String c +:+ newline +:+ out.

(** [fmt.Errorf("invoking diffstat(1): %s", msg)]. *)
Definition Errorf_diffstat (msg : string) : error :=
  errorString ("invoking diffstat(1): " +:+ msg).

(** ** The program *)

Definition set_Stdin (c : Cmd) (i : Input) : Cmd :=
  {| Path := Path c; Args := Args c; lookPathErr := lookPathErr c;
     Stdin := i; Stderr := Stderr c |}.

Definition set_Stderr (c : Cmd) (b : bool) : Cmd :=
  {| Path := Path c; Args := Args c; lookPathErr := lookPathErr c;
     Stdin := Stdin c; Stderr := b |}.

Definition dquote : string := String "034" "".

(** The error [exec.LookPath] gives for a name it cannot find. *)
Definition ErrNotFound (name : string) : error :=
  SysError ("exec: " +:+ dquote +:+ name +:+ dquote
              +:+ ": executable file not found in $PATH").

(** Does [Run] report this error as a process exit with a status other than
    1?  This is the test of [DiffStr] on the error of the comparison
    command: the type assertion to [*exec.ExitError], then [ExitCode() != 1]. *)
Definition exit_error_not_1 (err : option error) : bool :=
  match err with
  | Some (ExitError ps) => bool_decide (ProcessState_ExitCode ps ≠ 1)
  | _ => false
  end.

Section Program.

Context (w : World).

(** [exec.Command]: a bare name is looked up in the executable path, a
    name with a separator is taken as it is. *)
Definition Command (name : string) (arg : list string) : Cmd :=
  let mk path lpe :=
    {| Path := path; Args := name :: arg; lookPathErr := lpe;
       Stdin := DevNull; Stderr := false |} in
  if strings.ContainsByte name "/" || bool_decide (name = "") then mk name None
  else match w_LookPath w name with
       | Some lp => mk lp None
       | None => mk name (Some (ErrNotFound name))
       end.

(** [cmd.Run] with the standard output captured: the bytes the child wrote
    and the error.  A command whose lookup failed is not started.  Children
    are taken to leave the filesystem as it is. *)
Definition Run (c : Cmd) : M (string * option error) := λ st,
  match lookPathErr c with
  | Some e =>
      (Ret ("", Some e),
       {| fs := fs st; stderr := stderr st; procs := (c, "", Some e) :: procs st |})
  | None =>
      let r := w_spawn w (fs st) c in
      let err := match p_state r with
                 | inl msg => Some (SysError msg)
                 | inr (Exited 0) => None
                 | inr ps => Some (ExitError ps)
                 end in
      (Ret (p_stdout r, err),
       {| fs := fs st;
          stderr := if Stderr c then stderr st ++ [p_stderr r] else stderr st;
          procs := (c, p_stdout r, err) :: procs st |})
  end.

(** [cmd.Output]. *)
Definition Output (c : Cmd) : M (string * option error) := Run c.

(** [ioutil.TempDir]: an empty [dir] stands for the system's temporary
    directory; the new directory is the one the environment names. *)
Definition TempDir (dir pattern : string) : M (string + error) := λ st,
  match w_TempDir w (fs st) pattern with
  | inl d =>
      (Ret (inl d),
       {| fs := <[d := Dir]> (fs st); stderr := stderr st; procs := procs st |})
  | inr e => (Ret (inr e), st)
  end.

(** [ioutil.WriteFile]: the file holds exactly [data] afterwards; a refused
    write leaves the filesystem as it was. *)
Definition WriteFile (filename data : string) : M (option error) := λ st,
  match w_WriteFile w (fs st) filename with
  | Some e => (Ret (Some e), st)
  | None =>
      (Ret None,
       {| fs := <[filename := File data]> (fs st);
          stderr := stderr st; procs := procs st |})
  end.

(** [log.Fatalf]: the message goes to the diagnostic stream (the logger's
    time prefix is left out) and the process exits with status 1. *)
Definition log_Fatalf (msg : string) : M unit := λ st,
  (Exit 1, forwarded msg st).

(** [os.Stderr.Write]. *)
Definition os_Stderr_Write (p : string) : M (Z * option error) := λ st,
  (Ret (w_StderrWrite w (stderr st) p), forwarded p st).

Definition terminal_width : M string :=
  let cmd := Command "stty" ["size"] in
  let cmd := set_Stdin cmd OsStdin in
  '(out, err) ← Output cmd;
  match err with
  | Some _ => mret "80"
  | None => index (strings.Split out " ") 1
  end.

Definition isCommandAvailable (name : string) : M bool :=
  let cmd := Command "/bin/sh" ["-c"; "command -v " +:+ name] in
  '(_, err) ← Run cmd;
  match err with
  | Some _ =>
      log_Fatalf ("Command not found: " +:+ name +:+ newline);;
      mret false
  | None => mret true
  end.

(** [DiffStr] computes the differences between the strings [is_] (the
    source's [is]) and [should] using an external comparison tool. *)
Definition DiffStr (name is_ should : string) : M (string * option error) :=
  r ← TempDir "" "diff";
  match r with
  | inr err => mret ("", Some err)
  | inl dir =>
      defer (RemoveAll dir) (
        e1 ← WriteFile (filepath.Join [dir; "LIVE-" +:+ name]) is_;
        match e1 with
        | Some err => mret ("", Some err)
        | None =>
        e2 ← WriteFile (filepath.Join [dir; "MERGED-" +:+ name]) should;
        match e2 with
        | Some err => mret ("", Some err)
        | None =>
        let merged := filepath.Join [dir; "MERGED-" +:+ name] in
        let live := filepath.Join [dir; "LIVE-" +:+ name] in
        avail ← isCommandAvailable "icdiff";
        cmd ← (if avail : bool
               then
                 width ← terminal_width;
                 let cols := strings.Join ["--cols="; width] "" in
                 mret (Command "icdiff" ["-r"; cols; live; merged])
               else mret (Command "diff" ["-u"; "-N"; live; merged]));
        '(buf, err) ← Run cmd;
        if exit_error_not_1 err then mret ("", err)
        else
          let out := buf in
          let out := if decide (out ≠ "") then Sprintf_cmd_out cmd out else out in
          mret (out, None)
        end end)
  end.

(** [Diffstat] summarises a diff with the [diffstat] tool.  The [*string]
    result is an [option]. *)
Definition Diffstat (d : string) : M (option string * option error) :=
  let cmd := Command "diffstat" ["-C"] in
  let cmd := set_Stderr cmd true in
  let cmd := set_Stdin cmd (Reader d) in
  '(buf, err) ← Run cmd;
  match err with
  | Some e => mret (None, Some (Errorf_diffstat (Error e)))
  | None =>
      let out := buf in
      mret (Some out, None)
  end.

(** [FilteredErr] is a filtered diagnostic stream: a list of compiled
    regular expressions.  The regular-expression engine is a parameter. *)
Section Filter.

Context {Regexp : Type} (Match : Regexp → string → bool).

Fixpoint FilteredErr_Write (r : list Regexp) (p : string) : M (Z * option error) :=
  match r with
  | [] => os_Stderr_Write p
  | re :: r' =>
      if Match re p
      then mret (Z.of_nat (String.length p), None)
      else FilteredErr_Write r' p
  end.

End Filter.

End Program.

(** The two files of the workspace [dir] for [name]. *)
Definition live_path (dir name : string) : string :=
  filepath.Join [dir; "LIVE-" +:+ name].

Definition merged_path (dir name : string) : string :=
  filepath.Join [dir; "MERGED-" +:+ name].

(** The comparison command [DiffStr] builds when icdiff is available. *)
Definition icdiff_cmd (w : World) (width live merged : string) : Cmd :=
  Command w "icdiff" ["-r"; strings.Join ["--cols="; width] ""; live; merged].

(** icdiff behaves as a comparison tool on equal files: given two files of
    the same content it prints nothing and exits with status 0. *)
Definition silent_on_equal_files (w : World) : Prop :=
  ∀ (fs : FS) (width a b x : string),
    fs !! a = Some (File x) → fs !! b = Some (File x) →
    p_stdout (w_spawn w fs (icdiff_cmd w width a b)) = ""
    ∧ p_state (w_spawn w fs (icdiff_cmd w width a b)) = inr (Exited 0).

(** ** The ways through [DiffStr] *)

(** The state with another filesystem. *)
Definition with_fs (st : State) (f : FS) : State :=
  {| fs := f; stderr := stderr st; procs := procs st |}.

(** The ways a call [DiffStr name is_ should] from state [st] can take,
    each with what decides it, the outcome and the final state: the
    temporary directory is refused; the first or the second file is
    refused; the probe for icdiff ends the process; the terminal width
    query panics; the comparison command is run. *)
Inductive DiffStr_path (w : World) (name is_ should : string) (st : State) :
  Outcome (string * option error) → State → Prop :=
| path_no_workspace e :
    w_TempDir w (fs st) "diff" = inr e →
    DiffStr_path w name is_ should st (Ret ("", Some e)) st
| path_live_refused dir e :
    w_TempDir w (fs st) "diff" = inl dir →
    w_WriteFile w (<[dir := Dir]> (fs st)) (live_path dir name) = Some e →
    DiffStr_path w name is_ should st (Ret ("", Some e))
      (RemoveAll dir (with_fs st (<[dir := Dir]> (fs st))))
| path_merged_refused dir e :
    let fs1 := <[dir := Dir]> (fs st) in
    let fs2 := <[live_path dir name := File is_]> fs1 in
    w_TempDir w (fs st) "diff" = inl dir →
    w_WriteFile w fs1 (live_path dir name) = None →
    w_WriteFile w fs2 (merged_path dir name) = Some e →
    DiffStr_path w name is_ should st (Ret ("", Some e))
      (RemoveAll dir (with_fs st fs2))
| path_probe_exits dir st4 :
    let fs1 := <[dir := Dir]> (fs st) in
    let fs2 := <[live_path dir name := File is_]> fs1 in
    let fs3 := <[merged_path dir name := File should]> fs2 in
    w_TempDir w (fs st) "diff" = inl dir →
    w_WriteFile w fs1 (live_path dir name) = None →
    w_WriteFile w fs2 (merged_path dir name) = None →
    isCommandAvailable w "icdiff" (with_fs st fs3) = (Exit 1, st4) →
    DiffStr_path w name is_ should st (Exit 1) st4
| path_width_panics dir st4 msg st5 :
    let fs1 := <[dir := Dir]> (fs st) in
    let fs2 := <[live_path dir name := File is_]> fs1 in
    let fs3 := <[merged_path dir name := File should]> fs2 in
    w_TempDir w (fs st) "diff" = inl dir →
    w_WriteFile w fs1 (live_path dir name) = None →
    w_WriteFile w fs2 (merged_path dir name) = None →
    isCommandAvailable w "icdiff" (with_fs st fs3) = (Ret true, st4) →
    terminal_width w st4 = (Panic msg, st5) →
    DiffStr_path w name is_ should st (Panic msg) (RemoveAll dir st5)
| path_compared dir st4 width st5 buf err st6 :
    let fs1 := <[dir := Dir]> (fs st) in
    let fs2 := <[live_path dir name := File is_]> fs1 in
    let fs3 := <[merged_path dir name := File should]> fs2 in
    let cmd := icdiff_cmd w width (live_path dir name) (merged_path dir name) in
    w_TempDir w (fs st) "diff" = inl dir →
    w_WriteFile w fs1 (live_path dir name) = None →
    w_WriteFile w fs2 (merged_path dir name) = None →
    isCommandAvailable w "icdiff" (with_fs st fs3) = (Ret true, st4) →
    terminal_width w st4 = (Ret width, st5) →
    Run w cmd st5 = (Ret (buf, err), st6) →
    DiffStr_path w name is_ should st
      (Ret (if exit_error_not_1 err then ("", err)
            else (if decide (buf ≠ "") then Sprintf_cmd_out cmd buf else buf, None)))
      (RemoveAll dir st6).

(** ** A writer on the filter *)

(** What a writer does that hands its chunks to [Write] one after the other
    and goes on whatever the results are. *)
Fixpoint WriteAll (w : World) {Regexp : Type} (Match : Regexp → string → bool)
    (r : list Regexp) (chunks : list string) : M unit :=
  match chunks with
  | [] => mret tt
  | p :: rest => FilteredErr_Write w Match r p;; WriteAll w Match r rest
  end.

(** ** Another world *)

(** The world [w] with other child processes. *)
Definition with_spawn (w : World) (spawn : FS → Cmd → ProcResult) : World :=
  {| w_TempDir := w_TempDir w;
     w_WriteFile := w_WriteFile w;
     w_LookPath := w_LookPath w;
     w_spawn := spawn;
     w_StderrWrite := w_StderrWrite w |}.

(** ** Concrete hosts, to run the program on *)

Module Host.

Definition ok (out : string) : ProcResult :=
  {| p_stdout := out; p_stderr := ""; p_state := inr (Exited 0) |}.

Definition failed (code : Z) (diag : string) : ProcResult :=
  {| p_stdout := ""; p_stderr := diag; p_state := inr (Exited code) |}.

(** The last two arguments of a command line. *)
Definition last2 (l : list string) : option (string * string) :=
  match reverse l with
  | b :: a :: _ => Some (a, b)
  | _ => None
  end.

(** A comparison tool: silent and status 0 on equal files, a report and
    status 1 on different files, status 2 when a file cannot be read. *)
Definition compare (fs : FS) (c : Cmd) : ProcResult :=
  match last2 (Args c) with
  | Some (a, b) =>
      match fs !! a, fs !! b with
      | Some (File x), Some (File y) =>
          if decide (x = y) then ok ""
          else {| p_stdout := "-" +:+ x +:+ newline +:+ "+" +:+ y +:+ newline;
                  p_stderr := ""; p_state := inr (Exited 1) |}
      | _, _ => failed 2 "No such file or directory"
      end
  | None => failed 2 "missing operand"
  end.

(** A process that cannot be started. *)
Definition cannot_start (c : Cmd) : ProcResult :=
{| p_stdout := ""; p_stderr := "";
   p_state := inl ("fork/exec " +:+ Path c +:+ ": no such file or directory") |}.

(** The processes of a host.  [probe] is whether the shell finds icdiff,
  [stty] what the terminal size query prints ([None]: it fails, as it
  does without a terminal), [icdiff] what icdiff does when it is run. *)
Definition spawn (probe : bool) (stty : option string)
  (icdiff : FS → Cmd → ProcResult) (fs : FS) (c : Cmd) : ProcResult :=
if decide (Path c = "/bin/sh") then
  if probe then ok ("/usr/bin/icdiff" +:+ newline) else failed 1 ""
else if decide (Path c = "/usr/bin/stty") then
  match stty with
  | Some out => ok out
  | None => failed 1 "stty: standard input: Inappropriate ioctl for device"
  end
else if decide (Path c = "/usr/bin/icdiff") then icdiff fs c
else if decide (Path c = "/usr/bin/diff") then compare fs c
else if decide (Path c = "/usr/bin/diffstat") then
  match Stdin c with
  | Reader d => if decide (d = "") then failed 1 "diffstat: no input"
                else ok (" 1 file changed" +:+ newline)
  | _ => ok ""
  end
else cannot_start c.

(** The directory a path lies in. *)
Definition parent (path : string) : string :=
strings.Join (removelast (strings.Split path "/")) "/".

(** A host with a writable temporary directory and every tool but icdiff
  on the executable path; a file can be written where its directory
  exists.  [lookup] is whether [exec.LookPath] finds icdiff. *)
Definition host (probe lookup : bool) (stty : option string)
  (icdiff : FS → Cmd → ProcResult) : World :=
{| w_TempDir := λ _ pattern, inl ("/tmp/" +:+ pattern +:+ "042");
   w_WriteFile := λ fs path,
     match fs !! parent path with
     | Some Dir => None
     | _ => Some (SysError ("open " +:+ path +:+ ": no such file or directory"))
     end;
   w_LookPath := λ name,
     if decide (name = "icdiff") then
       if lookup then Some "/usr/bin/icdiff" else None
     else Some ("/usr/bin/" +:+ name);
   w_spawn := spawn probe stty icdiff;
   w_StderrWrite := λ _ p, (Z.of_nat (String.length p), None) |}.

Definition tty : option string := Some ("24 80" +:+ newline).

(** The usual host: icdiff installed, a terminal of 24 lines and 80
  columns. *)
Definition usual : World := host true true tty compare.

(** A host without icdiff. *)
Definition no_icdiff : World := host false false tty compare.

(** A host whose icdiff is on the path but cannot be executed. *)
Definition broken_icdiff : World := host true true tty (λ _ c, cannot_start c).

(** A host whose icdiff always exits with status 2. *)
Definition failing_icdiff : World :=
host true true tty (λ _ _, failed 2 "icdiff: error").

(** A host whose terminal size query prints a single number. *)
Definition odd_tty : World := host true true (Some "80") compare.

(** A host without a terminal. *)
Definition no_tty : World := host true true None compare.

(** A host whose temporary directory cannot be written. *)
Definition no_tmp : World :=
{| w_TempDir := λ _ pattern,
     inr (SysError ("mkdir /tmp/" +:+ pattern +:+ "042: permission denied"));
   w_WriteFile := w_WriteFile usual;
   w_LookPath := w_LookPath usual;
   w_spawn := w_spawn usual;
   w_StderrWrite := w_StderrWrite usual |}.

(** The usual host without diffstat on the executable path. *)
Definition no_diffstat : World :=
  {| w_TempDir := w_TempDir usual;
     w_WriteFile := w_WriteFile usual;
     w_LookPath := λ name,
       if decide (name = "diffstat") then None else w_LookPath usual name;
     w_spawn := w_spawn usual;
     w_StderrWrite := w_StderrWrite usual |}.

(** A stand-in for the regular-expression engine on patterns of the shape
    [^literal], each kept as its literal: such a pattern matches the chunks
    that start with the literal. *)
Definition anchored (literal p : string) : bool := strings.HasPrefix p literal.

(** A state before the call: the temporary directory and one unrelated
    file. *)
Definition st0 : State :=
  {| fs := {[ "/tmp" := Dir; "/etc" := Dir; "/etc/hosts" := File "localhost" ]};
     stderr := []; procs := [] |}.

End Host.

(** * Properties *)

(** ** The library functions on examples *)

Example DiffName_apps :
  DiffName {| APIVersion := "apps/v1"; Kind := "Deployment";
              Namespace := "default"; Name := "web" |}
  = "apps-v1.Deployment.default.web".
Proof. reflexivity. Qed.

Example Split_stty : strings.Split "24 80" " " = ["24"; "80"].
Proof. reflexivity. Qed.

Example Replace_limit : strings.Replace "a/b/c/d" "/" "--" 2 = "a--b--c/d".
Proof. reflexivity. Qed.

Example Replace_multi : strings.Replace "aaaa" "aa" "b" (-1) = "bb".
Proof. reflexivity. Qed.

Example Split_multi : strings.Split "a, b, c" ", " = ["a"; "b"; "c"].
Proof. reflexivity. Qed.

(** ** [DiffName] *)

Lemma replace_slash_dash s :
  strings.replace_go "/" "-" 0 (-1) s = slash_to_dash s.
Proof.
  induction s as [|c s IH]; [done|].
  cbn [strings.replace_go slash_to_dash].
  rewrite decide_False by done.
  cbn [strings.HasPrefix String.length].
  destruct (decide ("/"%char = c)) as [<-|Hc].
  - destruct (decide (-1 < 0)); [|lia].
    change (1 - 1)%nat with 0%nat. rewrite IH.
    by rewrite decide_True.
  - rewrite IH. by rewrite decide_False by congruence.
Qed.

Lemma slash_to_dash_no_slash s :
  strings.ContainsByte (slash_to_dash s) "/" = false.
Proof.
  induction s as [|c s IH]; [done|].
  cbn [slash_to_dash strings.ContainsByte].
  destruct (decide (c = "/"%char)); [by rewrite decide_False|].
  by rewrite decide_False.
Qed.

(** C8: [DiffName] is the dotted concatenation of the four identity strings
    with every ['/'] turned into ['-']; the result holds no ['/']; and the
    identity apps/v1, Deployment, default, web gives
    ["apps-v1.Deployment.default.web"]. *)
Theorem DiffName_dotted_without_slash (m : Manifest) :
  DiffName m
    = slash_to_dash (APIVersion m +:+ "." +:+ Kind m +:+ "."
                       +:+ Namespace m +:+ "." +:+ Name m)
  ∧ strings.ContainsByte (DiffName m) "/" = false
  ∧ DiffName {| APIVersion := "apps/v1"; Kind := "Deployment";
                Namespace := "default"; Name := "web" |}
    = "apps-v1.Deployment.default.web".
Proof.
  assert (DiffName m
          = slash_to_dash (Sprintf_dotted4 (APIVersion m) (Kind m)
                             (Namespace m) (Name m))) as Heq.
  { unfold DiffName, strings.Replace.
    rewrite decide_False by done. rewrite decide_False by done.
    apply replace_slash_dash. }
  split; [exact Heq|]. split; [|reflexivity].
  rewrite Heq. apply slash_to_dash_no_slash.
Qed.

(** ** [FilteredErr.Write] *)

Section FilterFacts.

Context (w : World) {Regexp : Type} (Match : Regexp → string → bool).

Lemma FilteredErr_Write_existsb r p st :
  FilteredErr_Write w Match r p st =
    if existsb (λ re, Match re p) r
    then (Ret (Z.of_nat (String.length p), None), st)
    else (Ret (w_StderrWrite w (stderr st) p), forwarded p st).
Proof.
  induction r as [|re r IH]; [done|].
  cbn [FilteredErr_Write existsb]. by destruct (Match re p).
Qed.

Lemma existsb_Permutation {A} (f : A → bool) l l' :
  l ≡ₚ l' → existsb f l = existsb f l'.
Proof.
  induction 1 as [|x l l' _ IH|x y l|l l' l'' _ IH1 _ IH2]; cbn.
  - done.
  - by rewrite IH.
  - by destruct (f x), (f y).
  - congruence.
Qed.

End FilterFacts.

(** C6: a chunk that some pattern of the list matches is reported as written
    in full and the diagnostic stream is left as it was; a chunk that no
    pattern matches is passed to the stream as it is and the stream's own
    result is returned; reordering the patterns changes nothing. *)
Theorem FilteredErr_Write_discards_or_forwards
    (w : World) {Regexp : Type} (Match : Regexp → string → bool)
    (r : list Regexp) (p : string) (st : State) :
  FilteredErr_Write w Match r p st
    = (if existsb (λ re, Match re p) r
       then (Ret (Z.of_nat (String.length p), None), st)
       else (Ret (w_StderrWrite w (stderr st) p),
             {| fs := fs st; stderr := stderr st ++ [p]; procs := procs st |}))
  ∧ (∀ r', r ≡ₚ r' →
       FilteredErr_Write w Match r' p st = FilteredErr_Write w Match r p st).
Proof.
  split; [apply FilteredErr_Write_existsb|].
  intros r' Hperm. rewrite !FilteredErr_Write_existsb.
  by rewrite (existsb_Permutation _ _ _ Hperm).
Qed.

Lemma FilteredErr_Write_order_witness :
  ["WARN:"; "DEBUG:"] ≡ₚ ["DEBUG:"; "WARN:"]
  ∧ FilteredErr_Write Host.usual Host.anchored
      ["DEBUG:"; "WARN:"] "WARN: deprecated" Host.st0
    = FilteredErr_Write Host.usual Host.anchored
        ["WARN:"; "DEBUG:"] "WARN: deprecated" Host.st0.
Proof.
  split; [apply perm_swap|].
  apply (proj2 (FilteredErr_Write_discards_or_forwards Host.usual
                  Host.anchored
                  ["WARN:"; "DEBUG:"] "WARN: deprecated" Host.st0)).
  apply perm_swap.
Defined.

Example FilteredErr_discards_WARN :
  FilteredErr_Write Host.usual Host.anchored
    ["WARN:"] "WARN: deprecated" Host.st0
  = (Ret (16, None), Host.st0).
Proof. reflexivity. Qed.

Example FilteredErr_forwards_other :
  FilteredErr_Write Host.usual Host.anchored
    ["WARN:"] "error: no such host" Host.st0
  = (Ret (19, None), forwarded "error: no such host" Host.st0).
Proof. reflexivity. Qed.

(** ** [Diffstat] *)

(** C7: [Diffstat] looks [diffstat] up on the executable path and, when it
    is found, runs it with the argument [-C], the diff text on its standard
    input and the process's diagnostic stream.  It succeeds, with the
    captured output, exactly when the tool was found, started and exited
    with status 0; when the tool is missing, cannot be started or exits with
    any other status (status 1 included) it returns no summary and an error
    whose text is the tool's error text after ["invoking diffstat(1): "]. *)
Theorem Diffstat_only_exit_0_succeeds (w : World) (d : string) (st : State) :
  let found := w_LookPath w "diffstat" in
  let c := {| Path := default "diffstat" found;
              Args := ["diffstat"; "-C"];
              lookPathErr := match found with
                             | Some _ => None
                             | None => Some (ErrNotFound "diffstat")
                             end;
              Stdin := Reader d;
              Stderr := true |} in
  let res := w_spawn w (fs st) c in
  let err := match found with
             | None => Some (ErrNotFound "diffstat")
             | Some _ =>
                 match p_state res with
                 | inl msg => Some (SysError msg)
                 | inr (Exited 0) => None
                 | inr ps => Some (ExitError ps)
                 end
             end in
  (Diffstat w d st).1
    = Ret (match err with
           | None => (Some (p_stdout res), None)
           | Some e =>
               (None, Some (errorString ("invoking diffstat(1): " +:+ Error e)))
           end)
  ∧ procs (Diffstat w d st).2
    = (c, match found with Some _ => p_stdout res | None => "" end, err)
        :: procs st
  ∧ (err = None ↔ is_Some found ∧ p_state res = inr (Exited 0))
  ∧ (match found with
     | None =>
         (Diffstat w d st).1
         = Ret (None, Some (errorString
                  ("invoking diffstat(1): exec: " +:+ dquote +:+ "diffstat"
                     +:+ dquote +:+ ": executable file not found in $PATH")))
     | Some _ =>
         match p_state res with
         | inr (Exited code) =>
             if decide (code = 0)
             then (Diffstat w d st).1 = Ret (Some (p_stdout res), None)
             else (Diffstat w d st).1
                  = Ret (None, Some (errorString
                           ("invoking diffstat(1): exit status " +:+ pretty code)))
         | inr (Signaled sig) =>
             (Diffstat w d st).1
             = Ret (None, Some (errorString
                      ("invoking diffstat(1): signal: " +:+ sig)))
         | inl msg =>
             (Diffstat w d st).1
             = Ret (None, Some (errorString ("invoking diffstat(1): " +:+ msg)))
         end
     end).
Proof.
  cbv zeta.
  assert (set_Stdin (set_Stderr (Command w "diffstat" ["-C"]) true) (Reader d)
          = {| Path := default "diffstat" (w_LookPath w "diffstat");
               Args := ["diffstat"; "-C"];
               lookPathErr := match w_LookPath w "diffstat" with
                              | Some _ => None
                              | None => Some (ErrNotFound "diffstat")
                              end;
               Stdin := Reader d; Stderr := true |}) as Hc.
  { unfold Command. cbn. by destruct (w_LookPath w "diffstat"). }
  unfold Diffstat, mbind, M_bind, mret, M_ret, Run. rewrite Hc. clear Hc.
  destruct (w_LookPath w "diffstat") as [lp|]; cbn [lookPathErr default].
  - match goal with
    | |- context [w_spawn w (fs st) ?c] =>
        destruct (w_spawn w (fs st) c) as [out diag [msg|[[|p|p]|sig]]]
    end; cbn;
      (split; [done|]); (split; [done|]); (split; [|done]);
      split; try done; intros [_ [=]].
  - cbn. split; [done|]. split; [done|]. split; [|done].
    split; [done|]. intros [[? [=]] _].
Qed.

Example Diffstat_exit_1 :
  (Diffstat Host.usual "" Host.st0).1
  = Ret (None, Some (errorString "invoking diffstat(1): exit status 1")).
Proof. reflexivity. Qed.

(** ** [DiffStr] *)

Ltac unfold_steps :=
  unfold DiffStr, Diffstat, isCommandAvailable, terminal_width, Output,
    TempDir, WriteFile, log_Fatalf, index, defer, Run,
    mbind, M_bind, mret, M_ret in *.

Ltac run_cases := repeat (case_match; simplify_eq/=).

(** C10: an error never comes with text: when [DiffStr] returns an error its
    string is empty, and when [Diffstat] returns an error its summary is
    nil. *)
Theorem error_excludes_output (w : World) :
  (∀ name is_ should st s e st',
     DiffStr w name is_ should st = (Ret (s, Some e), st') → s = "")
  ∧ (∀ d st p e st',
       Diffstat w d st = (Ret (p, Some e), st') → p = None).
Proof.
  split.
  - intros name is_ should st s e st' H. unfold_steps. by run_cases.
  - intros d st p e st' H. unfold_steps. by run_cases.
Qed.

Lemma error_excludes_output_witness :
  (∃ s e st',
     DiffStr Host.no_tmp "web" "a" "b" Host.st0 = (Ret (s, Some e), st') ∧ s = "")
  ∧ (∃ p e st',
       Diffstat Host.usual "" Host.st0 = (Ret (p, Some e), st') ∧ p = None).
Proof.
  split.
  - eexists _, _, _. split; [vm_compute; reflexivity|].
    eapply (proj1 (error_excludes_output Host.no_tmp) "web" "a" "b" Host.st0).
    vm_compute; reflexivity.
  - eexists _, _, _. split; [vm_compute; reflexivity|].
    eapply (proj2 (error_excludes_output Host.usual) "" Host.st0).
    vm_compute; reflexivity.
Defined.

(** *** Steps that leave the filesystem alone *)

Lemma Run_fs w c st r st' : Run w c st = (r, st') → fs st' = fs st.
Proof. unfold Run. intros H. by run_cases. Qed.

Lemma Run_returns w c st :
  ∃ buf err st', Run w c st = (Ret (buf, err), st')
    ∧ procs st' = (c, buf, err) :: procs st.
Proof. unfold Run. destruct (lookPathErr c); eauto 10. Qed.

Lemma terminal_width_fs w st r st' :
  terminal_width w st = (r, st') → fs st' = fs st.
Proof. intros H. unfold_steps. by run_cases. Qed.

Lemma isCommandAvailable_fs w name st r st' :
  isCommandAvailable w name st = (r, st') → fs st' = fs st.
Proof. intros H. unfold_steps. by run_cases. Qed.

(** The availability probe never answers [false]: it answers [true] or ends
    the process. *)
Lemma isCommandAvailable_true_or_exit w name st :
  (∃ st', isCommandAvailable w name st = (Ret true, st'))
  ∨ (∃ st', isCommandAvailable w name st = (Exit 1, st')).
Proof. unfold_steps. run_cases; eauto. Qed.

(** *** The workspace is removed when the call returns or panics *)

Lemma RemoveAll_under dir p st :
  under dir p = true → fs (RemoveAll dir st) !! p = None.
Proof.
  intros Hu. unfold RemoveAll. cbn.
  apply map_lookup_filter_None. right. intros x _. cbn. congruence.
Qed.

Lemma RemoveAll_outside dir p st :
  under dir p = false → fs (RemoveAll dir st) !! p = fs st !! p.
Proof.
  intros Hu. unfold RemoveAll. cbn.
  destruct (fs st !! p) as [x|] eqn:Hp.
  - apply map_lookup_filter_Some. by split.
  - apply map_lookup_filter_None. by left.
Qed.

Lemma defer_runs_cleanup {A} cleanup (body : M A) st r st' :
  defer cleanup body st = (r, st') →
  (∀ c, r ≠ Exit c) →
  ∃ st'', body st = (r, st'') ∧ st' = cleanup st''.
Proof.
  unfold defer. destruct (body st) as [[a|msg|c] st''] eqn:Hb;
    intros [= <- <-] Hr; eauto.
  by destruct (Hr c).
Qed.

Lemma DiffStr_removes_workspace w name is_ should st r st' dir p :
  DiffStr w name is_ should st = (r, st') →
  (∀ c, r ≠ Exit c) →
  w_TempDir w (fs st) "diff" = inl dir →
  under dir p = true →
  fs st' !! p = None.
Proof.
  intros H Hr Hdir Hu.
  unfold DiffStr, TempDir, mbind, M_bind in H. rewrite Hdir in H.
  apply defer_runs_cleanup in H as (st'' & _ & ->); [|done].
  by apply RemoveAll_under.
Qed.

(** *** The path through the comparison command *)

Lemma DiffStr_main_path w name is_ should st dir st3 width st4 buf err st5 :
  let live := live_path dir name in
  let merged := merged_path dir name in
  let fs1 := <[dir := Dir]> (fs st) in
  let fs2 := <[live := File is_]> fs1 in
  let st2 := {| fs := <[merged := File should]> fs2;
                stderr := stderr st; procs := procs st |} in
  let cmd := icdiff_cmd w width live merged in
  w_TempDir w (fs st) "diff" = inl dir →
  w_WriteFile w fs1 live = None →
  w_WriteFile w fs2 merged = None →
  isCommandAvailable w "icdiff" st2 = (Ret true, st3) →
  terminal_width w st3 = (Ret width, st4) →
  Run w cmd st4 = (Ret (buf, err), st5) →
  DiffStr w name is_ should st
    = (Ret (if exit_error_not_1 err then ("", err)
            else (if decide (buf ≠ "") then Sprintf_cmd_out cmd buf else buf, None)),
       RemoveAll dir st5).
Proof.
  intros live merged fs1 fs2 st2 cmd Hdir Hw1 Hw2 Hav Htw Hrun.
  unfold DiffStr, TempDir, WriteFile, defer, mbind, M_bind, mret, M_ret.
  rewrite Hdir. cbn [fs stderr procs].
  fold (live_path dir name) (merged_path dir name). fold live merged fs1.
  rewrite Hw1. cbn [fs stderr procs]. fold fs2.
  rewrite Hw2. cbn [fs stderr procs]. fold st2.
  rewrite Hav, Htw.
  change (Command w "icdiff" _) with cmd.
  rewrite Hrun. by destruct (exit_error_not_1 err).
Qed.

(** What a return without error tells about the run. *)
Lemma DiffStr_success_inv w name is_ should st s st' :
  DiffStr w name is_ should st = (Ret (s, None), st') →
  ∃ dir width buf err st4 st5,
    let cmd := icdiff_cmd w width (live_path dir name) (merged_path dir name) in
    w_TempDir w (fs st) "diff" = inl dir
    ∧ Run w cmd st4 = (Ret (buf, err), st5)
    ∧ exit_error_not_1 err = false
    ∧ s = (if decide (buf ≠ "") then Sprintf_cmd_out cmd buf else buf)
    ∧ st' = RemoveAll dir st5.
Proof.
  intros H.
  unfold DiffStr, TempDir, mbind, M_bind, mret, M_ret in H.
  destruct (w_TempDir w (fs st) "diff") as [dir|e] eqn:Hdir; [|by inversion H].
  apply defer_runs_cleanup in H as (st'' & H & ->); [|done].
  unfold WriteFile in H.
  destruct (w_WriteFile w _ _) in H; [by inversion H|].
  destruct (w_WriteFile w _ _) in H; [by inversion H|].
  match type of H with
  | context [isCommandAvailable w "icdiff" ?st2] =>
      destruct (isCommandAvailable_true_or_exit w "icdiff" st2)
        as [[st3 Hav]|[st3 Hav]]; rewrite Hav in H; [|by inversion H]
  end.
  destruct (terminal_width w st3) as [[width|?|?] st4] eqn:Htw;
    [|by inversion H..].
  fold (live_path dir name) (merged_path dir name) in H.
  change (Command w "icdiff" _)
    with (icdiff_cmd w width (live_path dir name) (merged_path dir name)) in H.
  destruct (Run_returns w
              (icdiff_cmd w width (live_path dir name) (merged_path dir name)) st4)
    as (buf & err & st5 & Hrun & _).
  rewrite Hrun in H.
  exists dir, width, buf, err, st4, st5. cbn zeta.
  destruct (exit_error_not_1 err) eqn:Hex.
  - inversion H; subst. done.
  - inversion H; subst. by repeat split.
Qed.

(** When [DiffStr] returns without error, the last command it ran is the
    comparison command on the two workspace files; if that command wrote
    nothing the result is the empty string, otherwise it is the command
    line as [exec.Cmd] prints it, a newline, and the captured output as it
    is. *)
Lemma DiffStr_header_then_output (w : World) (name is_ should : string)
    (st : State) (s : string) (st' : State) :
  DiffStr w name is_ should st = (Ret (s, None), st') →
  ∃ (dir width buf : string) (err : option error)
    (rest : list (Cmd * string * option error)),
    let cmd := icdiff_cmd w width (live_path dir name) (merged_path dir name) in
    w_TempDir w (fs st) "diff" = inl dir
    ∧ procs st' = (cmd, buf, err) :: rest
    ∧ (buf ≠ "" → s = Cmd_String cmd +:+ newline +:+ buf)
    ∧ (buf = "" → s = "").
Proof.
  intros H.
  apply DiffStr_success_inv in H
    as (dir & width & buf & err & st4 & st5 & Hdir & Hrun & _ & -> & ->).
  destruct (Run_returns w
              (icdiff_cmd w width (live_path dir name) (merged_path dir name)) st4)
    as (buf' & err' & st5' & Hrun' & Hprocs).
  rewrite Hrun in Hrun'. simplify_eq.
  exists dir, width, buf', err', (procs st4). cbn zeta.
  split; [done|]. split; [done|].
  split; intros Hbuf.
  - by rewrite decide_True.
  - rewrite decide_False; [done|]. by intros ?.
Qed.

Lemma DiffStr_header_then_output_usual :
  ∃ (dir width buf : string) (err : option error)
    (rest : list (Cmd * string * option error)),
    let cmd := icdiff_cmd Host.usual width (live_path dir "web") (merged_path dir "web") in
    w_TempDir Host.usual (fs Host.st0) "diff" = inl dir
    ∧ procs (DiffStr Host.usual "web" "a" "b" Host.st0).2 = (cmd, buf, err) :: rest
    ∧ (buf ≠ "" →
       "/usr/bin/icdiff -r --cols=80" +:+ newline
         +:+ " /tmp/diff042/LIVE-web /tmp/diff042/MERGED-web" +:+ newline
         +:+ "-a" +:+ newline +:+ "+b" +:+ newline
       = Cmd_String cmd +:+ newline +:+ buf)
    ∧ (buf = "" →
       "/usr/bin/icdiff -r --cols=80" +:+ newline
         +:+ " /tmp/diff042/LIVE-web /tmp/diff042/MERGED-web" +:+ newline
         +:+ "-a" +:+ newline +:+ "+b" +:+ newline
       = "").
Proof.
  apply (DiffStr_header_then_output Host.usual "web" "a" "b" Host.st0).
  vm_compute. reflexivity.
Defined.

Example DiffStr_no_differences :
  (DiffStr Host.usual "web" "a" "a" Host.st0).1 = Ret ("", None).
Proof. vm_compute. reflexivity. Qed.

(** *** Identical texts *)

Lemma sh_probe_found (w : World) (args : list string) :
  lookPathErr (Command w "/bin/sh" args) = None.
Proof. reflexivity. Qed.

Lemma Command_lookPathErr (w : World) (name : string) (args : list string) e :
  lookPathErr (Command w name args) = Some e → e = ErrNotFound name.
Proof.
  unfold Command.
  destruct (strings.ContainsByte name "/" || bool_decide (name = "")); [done|].
  destruct (w_LookPath w name); cbn; congruence.
Qed.

(** C9, as amended: when the workspace is created, both files are written,
    the shell finds icdiff, the terminal width query gives a width, and
    icdiff is silent with status 0 on files of equal content, [DiffStr] on
    twice the same text returns the empty string and no error. *)
Theorem DiffStr_identical_texts (w : World) (name X : string) (st : State)
    (dir : string) :
  let live := live_path dir name in
  let merged := merged_path dir name in
  let fs1 := <[dir := Dir]> (fs st) in
  let fs2 := <[live := File X]> fs1 in
  let fs3 := <[merged := File X]> fs2 in
  w_TempDir w (fs st) "diff" = inl dir →
  w_WriteFile w fs1 live = None →
  w_WriteFile w fs2 merged = None →
  p_state (w_spawn w fs3 (Command w "/bin/sh" ["-c"; "command -v icdiff"]))
    = inr (Exited 0) →
  (∀ st1, ∃ width, (terminal_width w st1).1 = Ret width) →
  silent_on_equal_files w →
  (DiffStr w name X X st).1 = Ret ("", None).
Proof.
  intros live merged fs1 fs2 fs3 Hdir Hw1 Hw2 Hprobe Hwidth Hsilent.
  set (st2 := {| fs := fs3; stderr := stderr st; procs := procs st |}).
  destruct (isCommandAvailable w "icdiff" st2) as [r3 st3] eqn:Hav.
  assert (r3 = Ret true) as ->.
  { unfold isCommandAvailable, Run, mbind, M_bind in Hav.
    rewrite sh_probe_found in Hav. cbn [fs st2] in Hav.
    change ("command -v " +:+ "icdiff") with "command -v icdiff" in Hav.
    rewrite Hprobe in Hav. by inversion Hav. }
  pose proof (isCommandAvailable_fs _ _ _ _ _ Hav) as Hfs3.
  destruct (Hwidth st3) as [width Hw].
  destruct (terminal_width w st3) as [r4 st4] eqn:Htw. cbn in Hw. subst r4.
  pose proof (terminal_width_fs _ _ _ _ Htw) as Hfs4.
  assert (fs st4 = fs3) as Hfs by (by rewrite Hfs4, Hfs3).
  assert (fs3 !! live = Some (File X)) as Hlive.
  { unfold fs3, fs2. rewrite lookup_insert. case_decide; [done|].
    by rewrite lookup_insert_eq. }
  assert (fs3 !! merged = Some (File X)) as Hmerged.
  { unfold fs3. by rewrite lookup_insert_eq. }
  destruct (Hsilent fs3 width live merged X Hlive Hmerged) as [Hout Hstate].
  set (cmd := icdiff_cmd w width live merged) in *.
  destruct (Run w cmd st4) as [r5 st5] eqn:Hrun.
  assert (∃ err, r5 = Ret ("", err) ∧ exit_error_not_1 err = false)
    as (err & -> & Hex).
  { unfold Run in Hrun. destruct (lookPathErr cmd) as [e|] eqn:Hlp.
    - apply Command_lookPathErr in Hlp as ->.
      eexists. inversion Hrun. by split.
    - rewrite Hfs, Hout, Hstate in Hrun. exists None. by inversion Hrun. }
  rewrite (DiffStr_main_path w name X X st dir st3 width st4 "" err st5
             Hdir Hw1 Hw2 Hav Htw Hrun).
  by rewrite Hex.
Qed.

Lemma usual_silent_on_equal_files : silent_on_equal_files Host.usual.
Proof.
  intros fs0 width a b x Ha Hb.
  assert (w_spawn Host.usual fs0 (icdiff_cmd Host.usual width a b)
          = match fs0 !! a, fs0 !! b with
            | Some (File x), Some (File y) =>
                if decide (x = y) then Host.ok ""
                else {| p_stdout := "-" +:+ x +:+ newline +:+ "+" +:+ y +:+ newline;
                        p_stderr := ""; p_state := inr (Exited 1) |}
            | _, _ => Host.failed 2 "No such file or directory"
            end) as -> by reflexivity.
  rewrite Ha, Hb. by rewrite decide_True.
Qed.

Lemma DiffStr_identical_texts_witness :
  (DiffStr Host.usual "web" "replicas: 3" "replicas: 3" Host.st0).1
  = Ret ("", None).
Proof.
  apply (DiffStr_identical_texts Host.usual "web" "replicas: 3" Host.st0
           "/tmp/diff042").
  - reflexivity.
  - vm_compute. reflexivity.
  - vm_compute. reflexivity.
  - vm_compute. reflexivity.
  - intros st1. eexists. vm_compute. reflexivity.
  - exact usual_silent_on_equal_files.
Defined.

(** C9, as the spec states it, fails: on the usual host a name with a
    separator names a file in a directory that does not exist, the write is
    refused and [DiffStr] returns that error. *)
Lemma DiffStr_identical_texts_counterexample :
  ¬ (∀ (w : World) (name X : string) (st : State),
       (DiffStr w name X X st).1 = Ret ("", None)).
Proof.
  intros H.
  specialize (H Host.usual "apps/v1.Deployment.default.web" "replicas: 3" Host.st0).
  vm_compute in H. discriminate H.
Qed.

Example DiffStr_name_with_separator :
  (DiffStr Host.usual "apps/v1.Deployment.default.web" "a" "a" Host.st0).1
  = Ret ("", Some (SysError
       "open /tmp/diff042/LIVE-apps/v1.Deployment.default.web: no such file or directory")).
Proof. vm_compute. reflexivity. Qed.

Example DiffStr_no_temporary_directory :
  DiffStr Host.no_tmp "web" "a" "a" Host.st0
  = (Ret ("", Some (SysError "mkdir /tmp/diff042: permission denied")), Host.st0).
Proof. vm_compute. reflexivity. Qed.

(** *** The terminal width *)

(** The size query as [terminal_width] builds it. *)
Lemma terminal_width_default (w : World) (st : State) out e st' :
  Output w (set_Stdin (Command w "stty" ["size"]) OsStdin) st
    = (Ret (out, Some e), st') →
  terminal_width w st = (Ret "80", st').
Proof.
  intros H. unfold terminal_width, mbind, M_bind. by rewrite H.
Qed.

Lemma split_go_no_space (cur s : string) :
  strings.ContainsByte s " " = false →
  strings.split_go " " 0 cur s = [String.rev_app cur s].
Proof.
  revert cur. induction s as [|c s IH]; intros cur Hs; [done|].
  cbn [strings.ContainsByte] in Hs.
  destruct (decide (c = " "%char)) as [->|Hc]; [done|].
  cbn [strings.split_go strings.HasPrefix].
  rewrite decide_False by congruence.
  by rewrite IH.
Qed.

(** A successful query whose output holds no space makes [terminal_width]
    panic on the index. *)
Lemma terminal_width_no_space_panics (w : World) (st : State) out st' :
  Output w (set_Stdin (Command w "stty" ["size"]) OsStdin) st
    = (Ret (out, None), st') →
  strings.ContainsByte out " " = false →
  terminal_width w st = (Panic "index out of range [1] with length 1", st').
Proof.
  intros H Hout. unfold terminal_width, mbind, M_bind. rewrite H.
  unfold strings.Split. rewrite decide_False by done.
  by rewrite split_go_no_space.
Qed.

(** C4: on a host whose size query succeeds and prints the single token
    ["80"], [terminal_width] does not return ["80"]: it panics, the index 1
    being out of range. *)
Theorem terminal_width_panics_on_single_token :
  terminal_width Host.odd_tty Host.st0
  = (Panic "index out of range [1] with length 1",
     {| fs := fs Host.st0; stderr := [];
        procs := [(set_Stdin (Command Host.odd_tty "stty" ["size"]) OsStdin,
                   "80", None)] |}).
Proof. vm_compute. reflexivity. Qed.

Example terminal_width_without_terminal :
  (terminal_width Host.no_tty Host.st0).1 = Ret "80".
Proof. vm_compute. reflexivity. Qed.

Example terminal_width_keeps_line_end :
  (terminal_width Host.usual Host.st0).1 = Ret ("80" +:+ newline).
Proof. vm_compute. reflexivity. Qed.

(** *** The exit status of the comparison command *)

(** C1: on a host where icdiff is found but cannot be executed, [Run] gives
    an error that is not an exit error, and [DiffStr] returns the empty
    string with a nil error instead of that error. *)
Theorem DiffStr_drops_start_failure :
  ∃ (cmd : Cmd) (rest : list (Cmd * string * option error)) (st' : State),
    DiffStr Host.broken_icdiff "web" "a" "b" Host.st0 = (Ret ("", None), st')
    ∧ procs st'
      = (cmd, "",
         Some (SysError "fork/exec /usr/bin/icdiff: no such file or directory"))
          :: rest
    ∧ Args cmd = ["icdiff"; "-r"; "--cols=80" +:+ newline;
                  "/tmp/diff042/LIVE-web"; "/tmp/diff042/MERGED-web"].
Proof. eexists _, _, _. vm_compute. repeat split. Qed.

Example DiffStr_exit_1_is_success :
  ∃ s, (DiffStr Host.usual "web" "a" "b" Host.st0).1 = Ret (s, None) ∧ s ≠ "".
Proof. eexists. vm_compute. split; [reflexivity|discriminate]. Qed.

Example DiffStr_exit_2_is_error :
  (DiffStr Host.failing_icdiff "web" "a" "b" Host.st0).1
  = Ret ("", Some (ExitError (Exited 2))).
Proof. vm_compute. reflexivity. Qed.

(** *** A host without icdiff *)

(** When the shell does not find icdiff the call ends the process, with the
    workspace in place and no comparison command run. *)
Lemma DiffStr_exits_without_icdiff (w : World) (name is_ should : string)
    (st : State) (dir : string) :
  let live := live_path dir name in
  let merged := merged_path dir name in
  let fs1 := <[dir := Dir]> (fs st) in
  let fs2 := <[live := File is_]> fs1 in
  let fs3 := <[merged := File should]> fs2 in
  let probe := Command w "/bin/sh" ["-c"; "command -v icdiff"] in
  w_TempDir w (fs st) "diff" = inl dir →
  w_WriteFile w fs1 live = None →
  w_WriteFile w fs2 merged = None →
  p_state (w_spawn w fs3 probe) ≠ inr (Exited 0) →
  ∃ err,
    DiffStr w name is_ should st
    = (Exit 1,
       {| fs := fs3;
          stderr := stderr st ++ ["Command not found: icdiff" +:+ newline];
          procs := (probe, p_stdout (w_spawn w fs3 probe), Some err) :: procs st |}).
Proof.
  intros live merged fs1 fs2 fs3 probe Hdir Hw1 Hw2 Hprobe.
  unfold DiffStr, TempDir, WriteFile, isCommandAvailable, log_Fatalf, Run,
    defer, mbind, M_bind, mret, M_ret.
  rewrite Hdir. cbn [fs stderr procs].
  fold (live_path dir name) (merged_path dir name). fold live merged fs1.
  rewrite Hw1. cbn [fs stderr procs]. fold fs2.
  rewrite Hw2. cbn [fs stderr procs]. fold fs3.
  change ("command -v " +:+ "icdiff") with "command -v icdiff". fold probe.
  change (lookPathErr probe) with (@None error). cbn match.
  change (Stderr probe) with false. cbn match.
  destruct (p_state (w_spawn w fs3 probe)) as [msg|[code|sig]] eqn:Hst.
  - by eexists.
  - destruct code; [done|by eexists..].
  - by eexists.
Qed.

(** C2: on a host without icdiff the call ends the process and the
    workspace directory and both of its files are still there. *)
Theorem DiffStr_leaves_workspace_without_icdiff :
  ∃ st' : State,
    DiffStr Host.no_icdiff "web" "a" "b" Host.st0 = (Exit 1, st')
    ∧ fs st' !! "/tmp/diff042" = Some Dir
    ∧ fs st' !! "/tmp/diff042/LIVE-web" = Some (File "a")
    ∧ fs st' !! "/tmp/diff042/MERGED-web" = Some (File "b").
Proof. eexists. vm_compute. repeat split. Qed.

(** C3: on a host without icdiff the call does not fall back to
    [diff -u -N]: the only command run is the shell probe, the message of
    [log.Fatalf] is on the diagnostic stream and the process has ended with
    status 1. *)
Theorem DiffStr_no_fallback_to_diff :
  ∃ st' : State,
    DiffStr Host.no_icdiff "web" "a" "b" Host.st0 = (Exit 1, st')
    ∧ stderr st' = ["Command not found: icdiff" +:+ newline]
    ∧ procs st'
      = [(Command Host.no_icdiff "/bin/sh" ["-c"; "command -v icdiff"],
          "", Some (ExitError (Exited 1)))].
Proof. eexists. vm_compute. repeat split. Qed.

(** *** The header *)

(** C5: on the usual host, where the size query prints ["24 80"] and a line
    end, the comparison command writes two lines and [DiffStr] returns four:
    the command line is broken after the column count, so the header is two
    lines, not one. *)
Theorem DiffStr_header_is_two_lines :
  ∃ (cmd : Cmd) (rest : list (Cmd * string * option error)) (st' : State),
    DiffStr Host.usual "web" "a" "b" Host.st0
    = (Ret ("/usr/bin/icdiff -r --cols=80" +:+ newline
              +:+ " /tmp/diff042/LIVE-web /tmp/diff042/MERGED-web" +:+ newline
              +:+ "-a" +:+ newline
              +:+ "+b" +:+ newline, None), st')
    ∧ procs st'
      = (cmd, "-a" +:+ newline +:+ "+b" +:+ newline, Some (ExitError (Exited 1)))
          :: rest.
Proof. eexists _, _, _. vm_compute. repeat split. Qed.

Example DiffStr_header_one_line_without_terminal :
  (DiffStr Host.no_tty "web" "a" "b" Host.st0).1
  = Ret ("/usr/bin/icdiff -r --cols=80 /tmp/diff042/LIVE-web /tmp/diff042/MERGED-web"
           +:+ newline +:+ "-a" +:+ newline +:+ "+b" +:+ newline, None).
Proof. vm_compute. reflexivity. Qed.

(** *** Names that leave the workspace *)

(** [filepath.Join] resolves [..]: a name can place the files outside the
    workspace, where the deferred removal does not reach them. *)
Example DiffStr_name_escapes_workspace :
  ∃ st' : State,
    DiffStr Host.usual "x/../../y" "a" "b" Host.st0 = (Ret ("", None), st')
    ∧ fs st' !! "/tmp/y" = Some (File "b").
Proof. eexists. vm_compute. repeat split. Qed.

(** * Further properties *)

(** ** Strings *)

Lemma str_app_cons (c : ascii) (s t : string) :
  String c s +:+ t = String c (s +:+ t).
Proof. reflexivity. Qed.

Lemma str_app_nil_r (s : string) : s +:+ "" = s.
Proof. induction s as [|c s IH]; [done|]. by rewrite str_app_cons, IH. Qed.

Lemma str_app_assoc (s t u : string) : (s +:+ t) +:+ u = s +:+ (t +:+ u).
Proof. induction s as [|c s IH]; [done|]. by rewrite !str_app_cons, IH. Qed.

Lemma ContainsByte_app (s t : string) (c : ascii) :
  strings.ContainsByte (s +:+ t) c
  = strings.ContainsByte s c || strings.ContainsByte t c.
Proof.
  induction s as [|a s IH]; [done|].
  rewrite str_app_cons. cbn [strings.ContainsByte].
  by destruct (decide (a = c)).
Qed.

Lemma HasPrefix_app (p s : string) : strings.HasPrefix (p +:+ s) p = true.
Proof.
  induction p as [|a p IH]; [done|].
  rewrite str_app_cons. cbn [strings.HasPrefix]. by rewrite decide_True.
Qed.

Lemma slash_to_dash_app (s t : string) :
  slash_to_dash (s +:+ t) = slash_to_dash s +:+ slash_to_dash t.
Proof.
  induction s as [|c s IH]; [done|].
  rewrite str_app_cons. cbn [slash_to_dash]. by rewrite IH, str_app_cons.
Qed.

Lemma slash_to_dash_id (s : string) :
  strings.ContainsByte s "/" = false ↔ slash_to_dash s = s.
Proof.
  induction s as [|c s IH]; [done|].
  cbn [strings.ContainsByte slash_to_dash].
  destruct (decide (c = "/"%char)) as [->|Hc].
  - split; [done|]. intros [=].
  - rewrite IH. split; [by intros ->|by intros [=]].
Qed.

Lemma slash_to_dash_idemp (s : string) :
  slash_to_dash (slash_to_dash s) = slash_to_dash s.
Proof. apply slash_to_dash_id, slash_to_dash_no_slash. Qed.

Lemma DiffName_slash_to_dash (m : Manifest) :
  DiffName m
  = slash_to_dash (Sprintf_dotted4 (APIVersion m) (Kind m) (Namespace m) (Name m)).
Proof.
  unfold DiffName, strings.Replace.
  rewrite decide_False by done. rewrite decide_False by done.
  apply replace_slash_dash.
Qed.

(** ** [DiffName], further *)

(** X1: [DiffName] cleans each of the four strings on its own and keeps the
    three dots between them. *)
Theorem DiffName_fieldwise (m : Manifest) :
  DiffName m
  = slash_to_dash (APIVersion m) +:+ "." +:+ slash_to_dash (Kind m) +:+ "."
      +:+ slash_to_dash (Namespace m) +:+ "." +:+ slash_to_dash (Name m).
Proof.
  rewrite DiffName_slash_to_dash. unfold Sprintf_dotted4.
  by rewrite !slash_to_dash_app.
Qed.

(** X2: [DiffName] gives the plain dotted name exactly when none of the four
    strings holds a ['/']. *)
Theorem DiffName_plain_iff_no_slash (m : Manifest) :
  DiffName m
    = APIVersion m +:+ "." +:+ Kind m +:+ "." +:+ Namespace m +:+ "." +:+ Name m
  ↔ strings.ContainsByte (APIVersion m) "/" = false
    ∧ strings.ContainsByte (Kind m) "/" = false
    ∧ strings.ContainsByte (Namespace m) "/" = false
    ∧ strings.ContainsByte (Name m) "/" = false.
Proof.
  rewrite DiffName_slash_to_dash. unfold Sprintf_dotted4.
  rewrite <- slash_to_dash_id. rewrite !ContainsByte_app. cbn.
  rewrite (decide_False (P := "."%char = "/"%char)) by done.
  cbn. rewrite !orb_false_iff. tauto.
Qed.

(** X3: two resources that differ only in ['/'] against ['-'] get the same
    name: [DiffName] of a resource and of the resource with its strings
    already cleaned agree. *)
Theorem DiffName_of_cleaned (m : Manifest) :
  DiffName {| APIVersion := slash_to_dash (APIVersion m);
              Kind := slash_to_dash (Kind m);
              Namespace := slash_to_dash (Namespace m);
              Name := slash_to_dash (Name m) |}
  = DiffName m.
Proof.
  rewrite (DiffName_slash_to_dash m), DiffName_slash_to_dash.
  unfold Sprintf_dotted4. cbn [APIVersion Kind Namespace Name].
  rewrite !slash_to_dash_app. by rewrite !slash_to_dash_idemp.
Qed.

(** ** Splitting on one byte, cleaning a path *)

Lemma split_go_no_sep (c : ascii) (cur s : string) :
  strings.ContainsByte s c = false →
  strings.split_go (String c "") 0 cur s = [String.rev_app cur s].
Proof.
  revert cur. induction s as [|a s IH]; intros cur Hs; [done|].
  cbn [strings.ContainsByte] in Hs.
  destruct (decide (a = c)) as [->|Hc]; [done|].
  cbn [strings.split_go strings.HasPrefix].
  rewrite decide_False by congruence.
  by rewrite IH.
Qed.

Lemma split_go_at_sep (c : ascii) (cur a b : string) :
  strings.ContainsByte a c = false →
  strings.split_go (String c "") 0 cur (a +:+ String c b)
  = String.rev_app cur a :: strings.split_go (String c "") 0 "" b.
Proof.
  revert cur. induction a as [|x a IH]; intros cur Ha.
  - cbn [String.append strings.split_go strings.HasPrefix String.length].
    change ("" +:+ String c b) with (String c b).
    cbn [strings.split_go strings.HasPrefix]. by rewrite decide_True.
  - cbn [strings.ContainsByte] in Ha.
    destruct (decide (x = c)) as [->|Hx]; [done|].
    rewrite str_app_cons. cbn [strings.split_go strings.HasPrefix].
    rewrite decide_False by congruence. by rewrite IH.
Qed.

Lemma split_go_snoc (c : ascii) (cur s e : string) :
  strings.ContainsByte e c = false →
  strings.split_go (String c "") 0 cur (s +:+ String c e)
  = strings.split_go (String c "") 0 cur s ++ [e].
Proof.
  intros He. revert cur. induction s as [|x s IH]; intros cur.
  - change ("" +:+ String c e) with (String c e).
    cbn [strings.split_go strings.HasPrefix]. rewrite decide_True by done.
    cbn [String.length Nat.sub]. by rewrite split_go_no_sep.
  - rewrite str_app_cons. cbn [strings.split_go strings.HasPrefix].
    destruct (decide (c = x)) as [->|Hx].
    + cbn [String.length Nat.sub]. by rewrite IH.
    + by rewrite IH.
Qed.

Lemma split_go_nonempty (sep : string) (skip : nat) (cur s : string) :
  (1 ≤ length (strings.split_go sep skip cur s))%nat.
Proof.
  revert skip cur. induction s as [|a s IH]; intros skip cur; [done|].
  cbn [strings.split_go]. destruct skip; [|apply IH].
  destruct (strings.HasPrefix (String a s) sep); [cbn; lia|apply IH].
Qed.

Lemma split_go_two (c : ascii) (cur s : string) :
  strings.ContainsByte s c = true →
  (2 ≤ length (strings.split_go (String c "") 0 cur s))%nat.
Proof.
  revert cur. induction s as [|a s IH]; intros cur Hs; [done|].
  cbn [strings.ContainsByte] in Hs.
  cbn [strings.split_go strings.HasPrefix].
  destruct (decide (a = c)) as [->|Hc].
  - rewrite decide_True by done. cbn [length String.length Nat.sub].
    pose proof (split_go_nonempty (String c "") 0 "" s). lia.
  - rewrite decide_False by congruence. by apply IH.
Qed.

Lemma clean_go_snoc (rooted : bool) (stack comps : list string) (e : string) :
  e ≠ "" → e ≠ "." → e ≠ ".." →
  filepath.clean_go rooted stack (comps ++ [e])
  = filepath.clean_go rooted stack comps ++ [e].
Proof.
  intros H1 H2 H3. revert stack.
  induction comps as [|c comps IH]; intros stack.
  - cbn [app filepath.clean_go].
    rewrite decide_False by tauto. rewrite decide_False by done.
    by rewrite reverse_cons.
  - cbn [app filepath.clean_go]. repeat case_match; apply IH.
Qed.

Lemma Join_snoc (l : list string) (sep e : string) :
  l ≠ [] → strings.Join (l ++ [e]) sep = strings.Join l sep +:+ sep +:+ e.
Proof.
  induction l as [|a l IH]; [done|]. intros _.
  destruct l as [|b l]; [done|].
  change (strings.Join ((a :: b :: l) ++ [e]) sep)
    with (a +:+ sep +:+ strings.Join ((b :: l) ++ [e]) sep).
  rewrite IH by done.
  change (strings.Join (a :: b :: l) sep)
    with (a +:+ sep +:+ strings.Join (b :: l) sep).
  by rewrite !str_app_assoc.
Qed.

(** A clean absolute directory other than the root, and below it a file
    whose name is one plain component: the join is the plain
    concatenation. *)
Lemma Join_dir_file (dir e : string) :
  filepath.Clean dir = dir →
  strings.HasPrefix dir "/" = true →
  dir ≠ "/" →
  e ≠ "" → e ≠ "." → e ≠ ".." →
  strings.ContainsByte e "/" = false →
  filepath.Join [dir; e] = dir +:+ "/" +:+ e.
Proof.
  intros Hclean Hroot Hnotroot H1 H2 H3 Hslash.
  destruct dir as [|d0 dir']; [done|].
  cbn [strings.HasPrefix] in Hroot.
  destruct (decide ("/"%char = d0)) as [<-|]; [|done].
  cbn [filepath.Join]. rewrite decide_False by done.
  change (strings.Join [String "/" dir'; e] "/")
    with (String "/" dir' +:+ "/" +:+ e).
  unfold filepath.Clean in *.
  rewrite decide_False in Hclean by done.
  rewrite decide_False by done.
  change (strings.HasPrefix (String "/" dir') "/") with true in Hclean.
  change (strings.HasPrefix (String "/" dir' +:+ "/" +:+ e) "/") with true.
  cbn zeta in *. unfold strings.Split in *.
  rewrite decide_False in Hclean by done. rewrite decide_False by done.
  destruct (decide ("/" = "")) as [|_]; [done|].
  change (String "/" dir' +:+ "/" +:+ e)
    with (String "/" dir' +:+ String "/" e).
  rewrite split_go_snoc by done.
  rewrite clean_go_snoc by done.
  set (L := filepath.clean_go true [] (strings.split_go "/" 0 "" (String "/" dir'))) in *.
  assert (L ≠ []) as HL.
  { intros HL. rewrite HL in Hclean. apply Hnotroot. by rewrite <- Hclean. }
  rewrite Join_snoc by done.
  rewrite <- Hclean. by rewrite !str_app_assoc.
Qed.

Lemma workspace_file_plain (pre name : string) :
  strings.ContainsByte pre "/" = false →
  (∃ a b c rest, pre = String a (String b (String c rest))) →
  strings.ContainsByte name "/" = false →
  pre +:+ name ≠ "" ∧ pre +:+ name ≠ "." ∧ pre +:+ name ≠ ".."
  ∧ strings.ContainsByte (pre +:+ name) "/" = false.
Proof.
  intros Hpre (a & b & c & rest & ->) Hname.
  rewrite ContainsByte_app, Hpre, Hname. by rewrite !str_app_cons.
Qed.

(** The two workspace files of a name without a separator. *)
Lemma workspace_paths (dir name : string) :
  filepath.Clean dir = dir →
  strings.HasPrefix dir "/" = true →
  dir ≠ "/" →
  strings.ContainsByte name "/" = false →
  live_path dir name = dir +:+ "/LIVE-" +:+ name
  ∧ merged_path dir name = dir +:+ "/MERGED-" +:+ name.
Proof.
  intros Hclean Hroot Hnotroot Hname.
  unfold live_path, merged_path.
  destruct (workspace_file_plain "LIVE-" name) as (?&?&?&?); [done|by eexists _,_,_,_|done|].
  destruct (workspace_file_plain "MERGED-" name) as (?&?&?&?); [done|by eexists _,_,_,_|done|].
  by rewrite !Join_dir_file.
Qed.

Lemma under_dir_file (dir e : string) : under dir (dir +:+ "/" +:+ e) = true.
Proof.
  unfold under. rewrite <- str_app_assoc. by rewrite HasPrefix_app, orb_true_r.
Qed.

(** ** Names made by [DiffName] *)

(** X4: with a name made by [DiffName], and a workspace directory that is a
    clean absolute path other than the root, the two files [DiffStr] writes
    are [LIVE-name] and [MERGED-name] directly in the workspace: they lie
    under it and are not the same file. *)
Theorem DiffName_files_in_workspace (m : Manifest) (dir : string) :
  filepath.Clean dir = dir →
  strings.HasPrefix dir "/" = true →
  dir ≠ "/" →
  live_path dir (DiffName m) = dir +:+ "/LIVE-" +:+ DiffName m
  ∧ merged_path dir (DiffName m) = dir +:+ "/MERGED-" +:+ DiffName m
  ∧ under dir (live_path dir (DiffName m)) = true
  ∧ under dir (merged_path dir (DiffName m)) = true
  ∧ live_path dir (DiffName m) ≠ merged_path dir (DiffName m).
Proof.
  intros Hclean Hroot Hnotroot.
  assert (strings.ContainsByte (DiffName m) "/" = false) as Hname.
  { rewrite DiffName_slash_to_dash. apply slash_to_dash_no_slash. }
  destruct (workspace_paths dir (DiffName m)) as [-> ->]; [done..|].
  repeat split.
  - change "/LIVE-" with ("/" +:+ "LIVE-"). rewrite !str_app_assoc.
    rewrite <- (str_app_assoc "/"). apply under_dir_file.
  - change "/MERGED-" with ("/" +:+ "MERGED-"). rewrite !str_app_assoc.
    rewrite <- (str_app_assoc "/"). apply under_dir_file.
  - intros Heq. apply (inj (String.app dir)) in Heq. discriminate Heq.
Qed.

Lemma DiffName_files_in_workspace_witness :
  live_path "/tmp/diff042"
    (DiffName {| APIVersion := "apps/v1"; Kind := "Deployment";
                 Namespace := "default"; Name := "web" |})
  = "/tmp/diff042/LIVE-apps-v1.Deployment.default.web".
Proof.
  pose proof (DiffName_files_in_workspace
                {| APIVersion := "apps/v1"; Kind := "Deployment";
                   Namespace := "default"; Name := "web" |} "/tmp/diff042")
    as H.
  destruct H as (H & _); [reflexivity|reflexivity|discriminate|].
  exact H.
Defined.

(** ** The steps of [DiffStr], further *)

Lemma Command_Stderr (w : World) (name : string) (args : list string) :
  Stderr (Command w name args) = false.
Proof.
  unfold Command.
  destruct (strings.ContainsByte name "/" || bool_decide (name = "")); [done|].
  by destruct (w_LookPath w name).
Qed.

Lemma Command_Args (w : World) (name : string) (args : list string) :
  Args (Command w name args) = name :: args.
Proof.
  unfold Command.
  destruct (strings.ContainsByte name "/" || bool_decide (name = "")); [done|].
  by destruct (w_LookPath w name).
Qed.

Lemma Run_quiet (w : World) (c : Cmd) (st : State) r st' :
  Stderr c = false → Run w c st = (r, st') → stderr st' = stderr st.
Proof.
  intros Hc. unfold Run. rewrite Hc.
  destruct (lookPathErr c); by intros [= <- <-].
Qed.

Lemma terminal_width_cases (w : World) (st : State) :
  ∃ out err,
    let c := set_Stdin (Command w "stty" ["size"]) OsStdin in
    let st1 := {| fs := fs st; stderr := stderr st;
                  procs := (c, out, err) :: procs st |} in
    terminal_width w st
    = match err with
      | Some _ => (Ret "80", st1)
      | None => index (strings.Split out " ") 1 st1
      end.
Proof.
  unfold terminal_width, Output, mbind, M_bind, Run.
  set (c := set_Stdin (Command w "stty" ["size"]) OsStdin).
  assert (Stderr c = false) as Hc by apply Command_Stderr.
  rewrite Hc. destruct (lookPathErr c) as [e|]; [by eexists _, (Some e)|].
  cbn zeta.
  destruct (match p_state (w_spawn w (fs st) c) with
            | inl msg => Some (SysError msg)
            | inr (Exited 0) => None
            | inr ps => Some (ExitError ps)
            end) as [e|] eqn:He.
  - by eexists _, (Some e).
  - by eexists _, None.
Qed.

Lemma terminal_width_never_exits (w : World) (st : State) c st' :
  terminal_width w st ≠ (Exit c, st').
Proof.
  destruct (terminal_width_cases w st) as (out & [e|] & ->); [done|].
  unfold index. by case_match.
Qed.

Lemma terminal_width_quiet (w : World) (st : State) r st' :
  terminal_width w st = (r, st') → stderr st' = stderr st.
Proof.
  destruct (terminal_width_cases w st) as (out & [e|] & ->).
  - by intros [= <- <-].
  - unfold index. case_match; by intros [= <- <-].
Qed.

Lemma terminal_width_panic_inv (w : World) (st : State) msg st' :
  terminal_width w st = (Panic msg, st') →
  msg = "index out of range [1] with length 1"
  ∧ ∃ out,
      strings.ContainsByte out " " = false
      ∧ st' = {| fs := fs st; stderr := stderr st;
                 procs := (set_Stdin (Command w "stty" ["size"]) OsStdin, out, None)
                            :: procs st |}.
Proof.
  destruct (terminal_width_cases w st) as (out & [e|] & ->); [done|].
  unfold index.
  destruct (strings.Split out " " !! 1%nat) as [x|] eqn:Hx; [done|].
  intros [= <- <-].
  apply lookup_ge_None in Hx. unfold strings.Split in Hx.
  rewrite decide_False in Hx by done.
  pose proof (split_go_nonempty " " 0 "" out) as H1.
  destruct (strings.ContainsByte out " ") eqn:Hsp.
  { pose proof (split_go_two " "%char "" out Hsp). lia. }
  split; [|by exists out].
  unfold strings.Split. rewrite decide_False by done.
  by rewrite split_go_no_sep.
Qed.

Lemma isCommandAvailable_cases (w : World) (name : string) (st : State) :
  ∃ out err,
    let probe := Command w "/bin/sh" ["-c"; "command -v " +:+ name] in
    let st1 := {| fs := fs st; stderr := stderr st;
                  procs := (probe, out, err) :: procs st |} in
    isCommandAvailable w name st
    = match err with
      | None => (Ret true, st1)
      | Some _ =>
          (Exit 1, forwarded ("Command not found: " +:+ name +:+ newline) st1)
      end.
Proof.
  unfold isCommandAvailable, log_Fatalf, mbind, M_bind, mret, M_ret, Run.
  set (probe := Command w "/bin/sh" ["-c"; "command -v " +:+ name]).
  change (lookPathErr probe) with (@None error).
  change (Stderr probe) with false. cbn zeta.
  destruct (match p_state (w_spawn w (fs st) probe) with
            | inl msg => Some (SysError msg)
            | inr (Exited 0) => None
            | inr ps => Some (ExitError ps)
            end) as [e|] eqn:He.
  - by eexists _, (Some e).
  - by eexists _, None.
Qed.

Lemma DiffStr_path_ok (w : World) (name is_ should : string) (st : State) :
  DiffStr_path w name is_ should st
    (DiffStr w name is_ should st).1 (DiffStr w name is_ should st).2.
Proof.
  unfold DiffStr, TempDir, WriteFile, defer, mbind, M_bind, mret, M_ret.
  destruct (w_TempDir w (fs st) "diff") as [dir|e] eqn:Hdir;
    [|by apply path_no_workspace].
  cbn [fs stderr procs].
  fold (live_path dir name) (merged_path dir name).
  destruct (w_WriteFile w (<[dir:=Dir]> (fs st)) (live_path dir name))
    as [e|] eqn:Hw1; [by apply path_live_refused|].
  cbn [fs stderr procs].
  destruct (w_WriteFile w _ (merged_path dir name)) as [e|] eqn:Hw2;
    [by apply path_merged_refused|].
  cbn [fs stderr procs].
  match goal with
  | |- context [isCommandAvailable w "icdiff" ?st3] =>
      change st3 with
        (with_fs st (<[merged_path dir name := File should]>
                       (<[live_path dir name := File is_]>
                          (<[dir := Dir]> (fs st)))));
      destruct (isCommandAvailable_true_or_exit w "icdiff"
                  (with_fs st (<[merged_path dir name := File should]>
                       (<[live_path dir name := File is_]>
                          (<[dir := Dir]> (fs st))))))
        as [[st4 Hav]|[st4 Hav]]; rewrite Hav
  end; [|by eapply path_probe_exits].
  destruct (terminal_width w st4) as [[width|msg|c] st5] eqn:Htw.
  - change (Command w "icdiff" _)
      with (icdiff_cmd w width (live_path dir name) (merged_path dir name)).
    destruct (Run_returns w
                (icdiff_cmd w width (live_path dir name) (merged_path dir name)) st5)
      as (buf & err & st6 & Hrun & _).
    rewrite Hrun.
    pose proof (path_compared w name is_ should st dir st4 width st5 buf err st6
                  Hdir Hw1 Hw2 Hav Htw Hrun) as HP.
    by destruct (exit_error_not_1 err).
  - by eapply path_width_panics.
  - by destruct (terminal_width_never_exits w st4 c st5).
Qed.

Lemma DiffStr_path_of (w : World) (name is_ should : string) (st : State) r st' :
  DiffStr w name is_ should st = (r, st') →
  DiffStr_path w name is_ should st r st'.
Proof.
  intros H. pose proof (DiffStr_path_ok w name is_ should st) as HP.
  by rewrite H in HP.
Qed.

Lemma isCommandAvailable_true_inv (w : World) (name : string) (st st' : State) :
  isCommandAvailable w name st = (Ret true, st') →
  fs st' = fs st ∧ stderr st' = stderr st
  ∧ ∃ out, procs st'
           = (Command w "/bin/sh" ["-c"; "command -v " +:+ name], out, None)
               :: procs st.
Proof.
  destruct (isCommandAvailable_cases w name st) as (out & [e|] & ->); [done|].
  intros [= <-]. cbn. eauto.
Qed.

Lemma isCommandAvailable_exit_inv (w : World) (name : string) (st st' : State) c :
  isCommandAvailable w name st = (Exit c, st') →
  c = 1 ∧ fs st' = fs st
  ∧ stderr st' = stderr st ++ ["Command not found: " +:+ name +:+ newline]
  ∧ ∃ out e, procs st'
             = (Command w "/bin/sh" ["-c"; "command -v " +:+ name], out, Some e)
                 :: procs st.
Proof.
  destruct (isCommandAvailable_cases w name st) as (out & [e|] & ->); [|done].
  intros [= <- <-]. cbn. eauto 10.
Qed.

(** ** The probe *)

(** X5: [isCommandAvailable] never answers [false].  It runs
    [/bin/sh -c "command -v <name>"]; when that exits with status 0 it
    returns [true] and writes nothing; in every other case it writes
    ["Command not found: <name>"] and a line end to the diagnostic stream and
    ends the process with status 1.  It leaves the filesystem alone. *)
Theorem isCommandAvailable_true_or_process_ends
    (w : World) (name : string) (st : State) :
  let probe := Command w "/bin/sh" ["-c"; "command -v " +:+ name] in
  ∃ (out : string) (err : option error),
    let st1 := {| fs := fs st; stderr := stderr st;
                  procs := (probe, out, err) :: procs st |} in
    Args probe = ["/bin/sh"; "-c"; "command -v " +:+ name]
    ∧ (err = None ↔ p_state (w_spawn w (fs st) probe) = inr (Exited 0))
    ∧ isCommandAvailable w name st
      = match err with
        | None => (Ret true, st1)
        | Some _ =>
            (Exit 1, forwarded ("Command not found: " +:+ name +:+ newline) st1)
        end.
Proof.
  intros probe.
  unfold isCommandAvailable, log_Fatalf, mbind, M_bind, mret, M_ret, Run.
  fold probe.
  change (lookPathErr probe) with (@None error).
  change (Stderr probe) with false. cbn zeta.
  destruct (p_state (w_spawn w (fs st) probe)) as [msg|[code|sig]] eqn:Hst.
  - eexists _, (Some _). split; [done|]. split; [|done]. by split.
  - destruct (decide (code = 0)) as [->|Hne].
    + eexists _, None. by repeat split.
    + eexists _, (Some (ExitError (Exited code))).
      split; [done|]. split; [split; [done|]; intros [=]; done|].
      by destruct code.
  - eexists _, (Some _). split; [done|]. split; [|done]. by split.
Qed.

(** ** The terminal width, further *)

(** X6: when the size query succeeds and prints two fields with one space
    between them, [terminal_width] returns the second field as it is,
    whatever follows the digits included. *)
Theorem terminal_width_second_field (w : World) (st : State)
    (rows cols : string) (st' : State) :
  Output w (set_Stdin (Command w "stty" ["size"]) OsStdin) st
    = (Ret (rows +:+ " " +:+ cols, None), st') →
  strings.ContainsByte rows " " = false →
  strings.ContainsByte cols " " = false →
  terminal_width w st = (Ret cols, st').
Proof.
  intros H Hrows Hcols. unfold terminal_width, mbind, M_bind. rewrite H.
  unfold strings.Split. rewrite decide_False by done.
  change (rows +:+ " " +:+ cols) with (rows +:+ String " " cols).
  rewrite split_go_at_sep by done.
  by rewrite split_go_no_sep.
Qed.

Lemma terminal_width_second_field_witness :
  terminal_width Host.usual Host.st0
  = (Ret ("80" +:+ newline), (Output Host.usual
        (set_Stdin (Command Host.usual "stty" ["size"]) OsStdin) Host.st0).2).
Proof.
  apply (terminal_width_second_field Host.usual Host.st0 "24" ("80" +:+ newline)).
  - vm_compute. reflexivity.
  - reflexivity.
  - reflexivity.
Defined.

(** ** [Diffstat], further *)

(** X7: [Diffstat] always returns (it neither panics nor ends the process),
    leaves the filesystem as it was, and passes what the tool writes on its
    diagnostic stream to the process's own.  When the tool is not on the
    executable path no process is started: nothing is written, and the
    result and the final state are the same whatever the child processes of
    the host would do. *)
Theorem Diffstat_effects (w : World) (d : string) (st : State) :
  let found := w_LookPath w "diffstat" in
  let c := {| Path := default "diffstat" found;
              Args := ["diffstat"; "-C"];
              lookPathErr := match found with
                             | Some _ => None
                             | None => Some (ErrNotFound "diffstat")
                             end;
              Stdin := Reader d;
              Stderr := true |} in
  (∃ r, (Diffstat w d st).1 = Ret r)
  ∧ fs (Diffstat w d st).2 = fs st
  ∧ stderr (Diffstat w d st).2
    = match found with
      | None => stderr st
      | Some _ => stderr st ++ [p_stderr (w_spawn w (fs st) c)]
      end
  ∧ (found = None →
     ∀ spawn : FS → Cmd → ProcResult,
       Diffstat (with_spawn w spawn) d st = Diffstat w d st).
Proof.
  cbv zeta.
  assert (∀ w' : World, w_LookPath w' "diffstat" = w_LookPath w "diffstat" →
          set_Stdin (set_Stderr (Command w' "diffstat" ["-C"]) true) (Reader d)
          = {| Path := default "diffstat" (w_LookPath w "diffstat");
               Args := ["diffstat"; "-C"];
               lookPathErr := match w_LookPath w "diffstat" with
                              | Some _ => None
                              | None => Some (ErrNotFound "diffstat")
                              end;
               Stdin := Reader d; Stderr := true |}) as Hc.
  { intros w' Hw'. unfold Command. cbn. rewrite Hw'.
    by destruct (w_LookPath w "diffstat"). }
  unfold Diffstat, mbind, M_bind, mret, M_ret, Run.
  rewrite (Hc w eq_refl).
  split; [|split; [|split]].
  - destruct (w_LookPath w "diffstat"); cbn [lookPathErr]; [|by eauto].
    match goal with
    | |- context [w_spawn w (fs st) ?c] =>
        destruct (w_spawn w (fs st) c) as [out diag [msg|[[|p|p]|sig]]]
    end; cbn; eauto.
  - destruct (w_LookPath w "diffstat"); cbn [lookPathErr]; [|done].
    match goal with
    | |- context [w_spawn w (fs st) ?c] =>
        destruct (w_spawn w (fs st) c) as [out diag [msg|[[|p|p]|sig]]]
    end; done.
  - destruct (w_LookPath w "diffstat"); cbn [lookPathErr]; [|done].
    match goal with
    | |- context [w_spawn w (fs st) ?c] =>
        destruct (w_spawn w (fs st) c) as [out diag [msg|[[|p|p]|sig]]]
    end; done.
  - intros Hnone spawn. rewrite (Hc (with_spawn w spawn) eq_refl).
    by rewrite Hnone.
Qed.

Lemma Diffstat_effects_witness :
  Diffstat (with_spawn Host.no_diffstat (λ _ _, Host.ok "1 file changed"))
    "--- a" Host.st0
  = Diffstat Host.no_diffstat "--- a" Host.st0.
Proof.
  apply (Diffstat_effects Host.no_diffstat "--- a" Host.st0).
  reflexivity.
Defined.

(** ** A writer on the filter *)

(** X8: the filter keeps no state between writes: after a run of writes the
    diagnostic stream has received exactly the chunks that no pattern
    matches, in the order they were written, and nothing else has changed. *)
Theorem WriteAll_forwards_unmatched
    (w : World) {Regexp : Type} (Match : Regexp → string → bool)
    (r : list Regexp) (chunks : list string) (st : State) :
  WriteAll w Match r chunks st
  = (Ret (), {| fs := fs st;
                stderr := stderr st
                            ++ filter (λ p, existsb (λ re, Match re p) r = false) chunks;
                procs := procs st |}).
Proof.
  revert st. induction chunks as [|p chunks IH]; intros st.
  - cbn. rewrite app_nil_r. by destruct st.
  - cbn [WriteAll]. unfold mbind, M_bind.
    rewrite FilteredErr_Write_existsb.
    destruct (existsb (λ re, Match re p) r) eqn:Hp.
    + fold (@mbind M _). rewrite IH. by rewrite filter_cons_False by congruence.
    + rewrite IH. rewrite filter_cons_True by done.
      unfold forwarded. cbn. by rewrite <- app_assoc.
Qed.

Example WriteAll_WARN :
  stderr (WriteAll Host.usual Host.anchored ["WARN:"]
            ["WARN: a"; "error: b"; "WARN: c"; "done"] Host.st0).2
  = ["error: b"; "done"].
Proof. reflexivity. Qed.

(** ** [DiffStr], further *)

Lemma RemoveAll_stderr dir st : stderr (RemoveAll dir st) = stderr st.
Proof. reflexivity. Qed.

Lemma RemoveAll_procs dir st : procs (RemoveAll dir st) = procs st.
Proof. reflexivity. Qed.

Lemma icdiff_cmd_Stderr w width a b : Stderr (icdiff_cmd w width a b) = false.
Proof. apply Command_Stderr. Qed.

(** X9: [DiffStr] writes to the diagnostic stream only when it ends the
    process: whenever it returns or panics the stream is as it was before the
    call (what the comparison command writes on its own diagnostic stream is
    not passed on). *)
Theorem DiffStr_quiet_unless_process_ends
    (w : World) (name is_ should : string) (st : State)
    (r : Outcome (string * option error)) (st' : State) :
  DiffStr w name is_ should st = (r, st') →
  (∀ c, r ≠ Exit c) →
  stderr st' = stderr st.
Proof.
  intros H Hr. apply DiffStr_path_of in H.
  destruct H as [e _|dir e _ _|dir e fs1 fs2 _ _ _|dir st4 fs1 fs2 fs3 _ _ _ _
                |dir st4 msg st5 fs1 fs2 fs3 _ _ _ Hav Htw
                |dir st4 width st5 buf err st6 fs1 fs2 fs3 cmd _ _ _ Hav Htw Hrun];
    try done.
  - by destruct (Hr 1).
  - rewrite RemoveAll_stderr.
    apply terminal_width_quiet in Htw as ->.
    by apply isCommandAvailable_true_inv in Hav as (_ & -> & _).
  - rewrite RemoveAll_stderr.
    apply Run_quiet in Hrun as ->; [|apply icdiff_cmd_Stderr].
    apply terminal_width_quiet in Htw as ->.
    by apply isCommandAvailable_true_inv in Hav as (_ & -> & _).
Qed.

Lemma DiffStr_quiet_unless_process_ends_witness :
  stderr (DiffStr Host.failing_icdiff "web" "a" "b" Host.st0).2 = stderr Host.st0.
Proof.
  eapply (DiffStr_quiet_unless_process_ends Host.failing_icdiff "web" "a" "b"
            Host.st0 (Ret ("", Some (ExitError (Exited 2))))).
  - vm_compute. reflexivity.
  - intros c. discriminate.
Defined.

(** X10: [DiffStr] can panic in one way only: the terminal size query
    succeeded and its output holds no space.  The panic is the index error
    of [terminal_width], the last command run is [stty size], and the
    workspace has been removed on the way out. *)
Theorem DiffStr_panics_only_in_width_query
    (w : World) (name is_ should : string) (st : State)
    (msg : string) (st' : State) :
  DiffStr w name is_ should st = (Panic msg, st') →
  msg = "index out of range [1] with length 1"
  ∧ ∃ (dir out : string) (rest : list (Cmd * string * option error)),
      w_TempDir w (fs st) "diff" = inl dir
      ∧ strings.ContainsByte out " " = false
      ∧ procs st'
        = (set_Stdin (Command w "stty" ["size"]) OsStdin, out, None) :: rest
      ∧ ∀ p, under dir p = true → fs st' !! p = None.
Proof.
  intros H. apply DiffStr_path_of in H.
  inversion H as [| | | |dir st4 msg' st5 fs1 fs2 fs3 Hdir _ _ Hav Htw|]; subst.
  apply terminal_width_panic_inv in Htw as (-> & out & Hout & ->).
  split; [done|]. exists dir, out, (procs st4).
  repeat split; try done.
  intros p Hp. by apply RemoveAll_under.
Qed.

Lemma DiffStr_panics_only_in_width_query_witness :
  ∃ (dir out : string) (rest : list (Cmd * string * option error)),
    w_TempDir Host.odd_tty (fs Host.st0) "diff" = inl dir
    ∧ strings.ContainsByte out " " = false
    ∧ procs (DiffStr Host.odd_tty "web" "a" "b" Host.st0).2
      = (set_Stdin (Command Host.odd_tty "stty" ["size"]) OsStdin, out, None) :: rest
    ∧ ∀ p, under dir p = true →
           fs (DiffStr Host.odd_tty "web" "a" "b" Host.st0).2 !! p = None.
Proof.
  apply (DiffStr_panics_only_in_width_query Host.odd_tty "web" "a" "b" Host.st0
           "index out of range [1] with length 1").
  vm_compute. reflexivity.
Defined.

(** X11: [DiffStr] ends the process in one way only: both files were written
    and the probe for icdiff failed.  The status is 1, the message
    ["Command not found: icdiff"] is the last thing on the diagnostic stream,
    no comparison command was run, and the file [MERGED-name] with the
    desired text is still there: the deferred removal did not run. *)
Theorem DiffStr_process_end_leaves_files
    (w : World) (name is_ should : string) (st : State)
    (c : Z) (st' : State) :
  DiffStr w name is_ should st = (Exit c, st') →
  c = 1
  ∧ ∃ (dir out : string) (e : error),
      w_TempDir w (fs st) "diff" = inl dir
      ∧ fs st' !! merged_path dir name = Some (File should)
      ∧ stderr st' = stderr st ++ ["Command not found: icdiff" +:+ newline]
      ∧ procs st'
        = (Command w "/bin/sh" ["-c"; "command -v icdiff"], out, Some e)
            :: procs st.
Proof.
  intros H. apply DiffStr_path_of in H.
  inversion H as [| | |dir st4 fs1 fs2 fs3 Hdir _ _ Hav| |]; subst.
  apply isCommandAvailable_exit_inv in Hav as (_ & Hfs & Herr & out & e & Hprocs).
  split; [done|]. exists dir, out, e.
  repeat split; try done.
  rewrite Hfs. unfold with_fs, fs3. cbn [fs]. by rewrite lookup_insert_eq.
Qed.

Lemma DiffStr_process_end_leaves_files_witness :
  ∃ (dir out : string) (e : error),
    w_TempDir Host.no_icdiff (fs Host.st0) "diff" = inl dir
    ∧ fs (DiffStr Host.no_icdiff "web" "a" "b" Host.st0).2 !! merged_path dir "web"
      = Some (File "b")
    ∧ stderr (DiffStr Host.no_icdiff "web" "a" "b" Host.st0).2
      = stderr Host.st0 ++ ["Command not found: icdiff" +:+ newline]
    ∧ procs (DiffStr Host.no_icdiff "web" "a" "b" Host.st0).2
      = (Command Host.no_icdiff "/bin/sh" ["-c"; "command -v icdiff"], out, Some e)
          :: procs Host.st0.
Proof.
  apply (DiffStr_process_end_leaves_files Host.no_icdiff "web" "a" "b" Host.st0 1).
  vm_compute. reflexivity.
Defined.

(** X12: an error returned by [DiffStr] is the error of [ioutil.TempDir],
    or the error of one of the two writes (and then no command was run), or
    the exit error of the comparison command with a status other than 1.  An
    error of [Run] that is not an exit error is never returned. *)
Theorem DiffStr_error_sources
    (w : World) (name is_ should : string) (st : State)
    (s : string) (e : error) (st' : State) :
  DiffStr w name is_ should st = (Ret (s, Some e), st') →
  (w_TempDir w (fs st) "diff" = inr e ∧ st' = st)
  ∨ (∃ dir, w_TempDir w (fs st) "diff" = inl dir
       ∧ procs st' = procs st
       ∧ (w_WriteFile w (<[dir := Dir]> (fs st)) (live_path dir name) = Some e
          ∨ w_WriteFile w (<[live_path dir name := File is_]> (<[dir := Dir]> (fs st)))
              (merged_path dir name) = Some e))
  ∨ (∃ ps dir width buf rest,
       w_TempDir w (fs st) "diff" = inl dir
       ∧ e = ExitError ps ∧ ProcessState_ExitCode ps ≠ 1
       ∧ procs st'
         = (icdiff_cmd w width (live_path dir name) (merged_path dir name),
            buf, Some e) :: rest).
Proof.
  intros H. apply DiffStr_path_of in H.
  inversion H as [e' Hdir|dir e' Hdir Hw1|dir e' fs1 fs2 Hdir Hw1 Hw2| |
                 |dir st4 width st5 buf err st6 fs1 fs2 fs3 cmd Hdir _ _ Hav Htw Hrun Hres];
    subst.
  - by left.
  - right; left. exists dir. by eauto.
  - right; left. exists dir. by eauto.
  - right; right.
    destruct (exit_error_not_1 err) eqn:Hex; [|done].
    injection Hres as <- ->.
    destruct e as [ps| |]; try done.
    cbn in Hex. apply bool_decide_eq_true in Hex.
    destruct (Run_returns w cmd st5) as (buf' & err' & st6' & Hrun' & Hprocs).
    rewrite Hrun in Hrun'. simplify_eq.
    exists ps, dir, width, buf', (procs st5). rewrite RemoveAll_procs.
    by repeat split.
Qed.

Lemma DiffStr_error_sources_witness :
  ∃ ps dir width buf rest,
    w_TempDir Host.failing_icdiff (fs Host.st0) "diff" = inl dir
    ∧ ExitError (Exited 2) = ExitError ps ∧ ProcessState_ExitCode ps ≠ 1
    ∧ procs (DiffStr Host.failing_icdiff "web" "a" "b" Host.st0).2
      = (icdiff_cmd Host.failing_icdiff width (live_path dir "web")
           (merged_path dir "web"), buf, Some (ExitError (Exited 2))) :: rest.
Proof.
  destruct (DiffStr_error_sources Host.failing_icdiff "web" "a" "b" Host.st0
              "" (ExitError (Exited 2))
              (DiffStr Host.failing_icdiff "web" "a" "b" Host.st0).2)
    as [[H _]|[(dir & _ & H & _)|H]].
  - vm_compute. reflexivity.
  - vm_compute in H. discriminate H.
  - vm_compute in H. discriminate H.
  - exact H.
Defined.

Lemma under_refl dir : under dir dir = true.
Proof. unfold under. by rewrite bool_decide_eq_true_2. Qed.

Lemma lookup_insert_outside (dir key p : string) (x : Node) (f : FS) :
  under dir key = true → under dir p = false →
  <[key := x]> f !! p = f !! p.
Proof. intros Hk Hp. apply lookup_insert_ne. congruence. Qed.

Lemma RemoveAll_restores (dir : string) (st0 st : State) :
  (∀ p, under dir p = true → fs st0 !! p = None) →
  (∀ p, under dir p = false → fs st !! p = fs st0 !! p) →
  fs (RemoveAll dir st) = fs st0.
Proof.
  intros Hfresh Hout. apply map_eq. intros p.
  destruct (under dir p) eqn:Hp.
  - rewrite RemoveAll_under by done. by rewrite Hfresh.
  - rewrite RemoveAll_outside by done. by apply Hout.
Qed.

(** X13: with a name that holds no separator, and a workspace directory
    that is new, a clean absolute path and not the root, [DiffStr] leaves
    the filesystem exactly as it found it whenever it returns or panics. *)
Theorem DiffStr_restores_filesystem
    (w : World) (name is_ should : string) (st : State)
    (r : Outcome (string * option error)) (st' : State) :
  DiffStr w name is_ should st = (r, st') →
  (∀ c, r ≠ Exit c) →
  strings.ContainsByte name "/" = false →
  (∀ dir, w_TempDir w (fs st) "diff" = inl dir →
          filepath.Clean dir = dir ∧ strings.HasPrefix dir "/" = true ∧ dir ≠ "/"
          ∧ ∀ p, under dir p = true → fs st !! p = None) →
  fs st' = fs st.
Proof.
  intros H Hr Hname Hdirs. apply DiffStr_path_of in H.
  assert (∀ dir, w_TempDir w (fs st) "diff" = inl dir →
                 under dir (live_path dir name) = true
                 ∧ under dir (merged_path dir name) = true) as Hunder.
  { intros dir Hdir. destruct (Hdirs dir Hdir) as (Hc & Hroot & Hnr & _).
    destruct (workspace_paths dir name Hc Hroot Hnr Hname) as [-> ->].
    change "/LIVE-" with ("/" +:+ "LIVE-").
    change "/MERGED-" with ("/" +:+ "MERGED-").
    rewrite !str_app_assoc. rewrite <- !(str_app_assoc "/").
    split; apply under_dir_file. }
  destruct H as [e _|dir e Hdir _|dir e fs1 fs2 Hdir _ _|dir st4 fs1 fs2 fs3 _ _ _ _
                |dir st4 msg st5 fs1 fs2 fs3 Hdir _ _ Hav Htw
                |dir st4 width st5 buf err st6 fs1 fs2 fs3 cmd Hdir _ _ Hav Htw Hrun];
    try done.
  - destruct (Hdirs dir Hdir) as (_ & _ & _ & Hfresh).
    apply RemoveAll_restores; [done|]. intros p Hp. cbn.
    apply (lookup_insert_outside dir); [apply under_refl|done].
  - destruct (Hdirs dir Hdir) as (_ & _ & _ & Hfresh).
    destruct (Hunder dir Hdir) as [Hl Hm].
    apply RemoveAll_restores; [done|]. intros p Hp. cbn. unfold fs2, fs1.
    rewrite (lookup_insert_outside dir) by done.
    apply (lookup_insert_outside dir); [apply under_refl|done].
  - by destruct (Hr 1).
  - destruct (Hdirs dir Hdir) as (_ & _ & _ & Hfresh).
    destruct (Hunder dir Hdir) as [Hl Hm].
    apply RemoveAll_restores; [done|]. intros p Hp.
    apply terminal_width_fs in Htw as ->.
    apply isCommandAvailable_fs in Hav as ->. cbn. unfold fs3, fs2, fs1.
    rewrite !(lookup_insert_outside dir) by done.
    apply (lookup_insert_outside dir); [apply under_refl|done].
  - destruct (Hdirs dir Hdir) as (_ & _ & _ & Hfresh).
    destruct (Hunder dir Hdir) as [Hl Hm].
    apply RemoveAll_restores; [done|]. intros p Hp.
    apply Run_fs in Hrun as ->.
    apply terminal_width_fs in Htw as ->.
    apply isCommandAvailable_fs in Hav as ->. cbn. unfold fs3, fs2, fs1.
    rewrite !(lookup_insert_outside dir) by done.
    apply (lookup_insert_outside dir); [apply under_refl|done].
Qed.

Lemma st0_nothing_under_workspace (p : string) :
  under "/tmp/diff042" p = true → fs Host.st0 !! p = None.
Proof.
  intros Hp. unfold Host.st0. cbn [fs].
  rewrite lookup_insert. case_decide as H1; [by subst|].
  rewrite lookup_insert. case_decide as H2; [by subst|].
  rewrite lookup_singleton. case_decide as H3; [by subst|].
  done.
Qed.

Lemma DiffStr_restores_filesystem_witness :
  fs (DiffStr Host.usual "web" "a" "b" Host.st0).2 = fs Host.st0.
Proof.
  eapply (DiffStr_restores_filesystem Host.usual "web" "a" "b" Host.st0
            (DiffStr Host.usual "web" "a" "b" Host.st0).1).
  - by destruct (DiffStr Host.usual "web" "a" "b" Host.st0).
  - intros c. vm_compute. discriminate.
  - reflexivity.
  - intros dir [= <-]. split; [reflexivity|]. split; [reflexivity|].
    split; [discriminate|]. exact st0_nothing_under_workspace.
Defined.

(** X14: once the comparison command has been started, its exit status
    decides: with status 0 or 1 [DiffStr] returns no error and the text (the
    command line, a line end and the output, or the empty string when there
    is no output); with any other status it returns the empty string and the
    exit error. *)
Theorem DiffStr_exit_status_policy
    (w : World) (name is_ should : string) (st : State)
    (dir width : string) (code : Z) :
  let live := live_path dir name in
  let merged := merged_path dir name in
  let fs1 := <[dir := Dir]> (fs st) in
  let fs2 := <[live := File is_]> fs1 in
  let fs3 := <[merged := File should]> fs2 in
  let cmd := icdiff_cmd w width live merged in
  let buf := p_stdout (w_spawn w fs3 cmd) in
  w_TempDir w (fs st) "diff" = inl dir →
  w_WriteFile w fs1 live = None →
  w_WriteFile w fs2 merged = None →
  p_state (w_spawn w fs3 (Command w "/bin/sh" ["-c"; "command -v icdiff"]))
    = inr (Exited 0) →
  (∀ st1, (terminal_width w st1).1 = Ret width) →
  lookPathErr cmd = None →
  p_state (w_spawn w fs3 cmd) = inr (Exited code) →
  (DiffStr w name is_ should st).1
  = Ret (if decide (code = 0 ∨ code = 1)
         then (if decide (buf ≠ "") then Cmd_String cmd +:+ newline +:+ buf else "",
               None)
         else ("", Some (ExitError (Exited code)))).
Proof.
  intros live merged fs1 fs2 fs3 cmd buf Hdir Hw1 Hw2 Hprobe Hwidth Hlp Hstate.
  set (st2 := {| fs := fs3; stderr := stderr st; procs := procs st |}).
  destruct (isCommandAvailable w "icdiff" st2) as [r3 st3] eqn:Hav.
  assert (r3 = Ret true) as ->.
  { unfold isCommandAvailable, Run, mbind, M_bind in Hav.
    rewrite sh_probe_found in Hav. cbn [fs st2] in Hav.
    change ("command -v " +:+ "icdiff") with "command -v icdiff" in Hav.
    rewrite Hprobe in Hav. by inversion Hav. }
  pose proof (isCommandAvailable_fs _ _ _ _ _ Hav) as Hfs3.
  pose proof (Hwidth st3) as Hw.
  destruct (terminal_width w st3) as [r4 st4] eqn:Htw. cbn in Hw. subst r4.
  pose proof (terminal_width_fs _ _ _ _ Htw) as Hfs4.
  assert (fs st4 = fs3) as Hfs by (by rewrite Hfs4, Hfs3).
  set (err := match code with
              | 0 => None
              | _ => Some (ExitError (Exited code))
              end).
  assert (∃ st5, Run w cmd st4 = (Ret (buf, err), st5)) as [st5 Hrun].
  { unfold Run. rewrite Hlp, Hfs, Hstate. by eexists. }
  rewrite (DiffStr_main_path w name is_ should st dir st3 width st4 buf err st5
             Hdir Hw1 Hw2 Hav Htw Hrun).
  cbn [fst]. f_equal. unfold err, Sprintf_cmd_out. fold live merged cmd.
  destruct (decide (code = 0 ∨ code = 1)) as [[->| ->]|Hne].
  - cbn. destruct (decide (buf ≠ "")) as [|Hb]; [done|].
    apply dec_stable in Hb. by rewrite Hb.
  - cbn. destruct (decide (buf ≠ "")) as [|Hb]; [done|].
    apply dec_stable in Hb. by rewrite Hb.
  - assert (code ≠ 0 ∧ code ≠ 1) as [H0 H1] by tauto.
    destruct code; [done|..]; cbn; by rewrite bool_decide_eq_true_2.
Qed.

Lemma DiffStr_exit_status_policy_witness :
  (DiffStr Host.failing_icdiff "web" "a" "b" Host.st0).1
  = Ret ("", Some (ExitError (Exited 2))).
Proof.
  apply (DiffStr_exit_status_policy Host.failing_icdiff "web" "a" "b" Host.st0
           "/tmp/diff042" ("80" +:+ newline) 2).
  - reflexivity.
  - vm_compute. reflexivity.
  - vm_compute. reflexivity.
  - vm_compute. reflexivity.
  - intros st1. vm_compute. reflexivity.
  - reflexivity.
  - vm_compute. reflexivity.
Defined.




